(** * TechDocs reader page context: [plugins/techdocs-react/src/context.tsx]

    A shallow embedding of the provider component, its memo comparator and
    the consumer hook, together with the part of the React runtime they run
    on (hook cells, dependency arrays compared with [Object.is], memo
    bail-out, context lookup), followed by the properties of the reader page
    state that the specification states. *)

From stdpp Require Import base option strings list gmap.

(** ** JavaScript values *)

(** A thrown [Error], kept as its message. *)
Definition JsError : Type := string.

(** Outcome of a call that may throw. *)
Inductive result (A : Type) : Type :=
| Return (a : A)
| Throw (e : JsError).
Arguments Return {A} a.
Arguments Throw {A} e.

Definition result_bind {A B} (r : result A) (k : A → result B) : result B :=
  match r with
  | Return a => k a
  | Throw e => Throw e
  end.

(** One key of an object literal or of a props object: the key is missing,
    present with the value [undefined], or present with a value.  Object
    spread copies every own key, also one that holds [undefined]. *)
Inductive field (A : Type) : Type :=
| Absent
| Undefined
| Given (a : A).
Arguments Absent {A}.
Arguments Undefined {A}.
Arguments Given {A} a.

(** Property access [o.k]: [undefined] for a missing key too. *)
Definition read {A} (f : field A) : option A :=
  match f with
  | Given a => Some a
  | Absent | Undefined => None
  end.

(** [{...base, ...over}] seen at one key. *)
Definition spread {A} (base : option A) (over : field A) : option A :=
  match over with
  | Absent => base
  | Undefined => None
  | Given a => Some a
  end.

(** A destructuring default, [const { k = d } = o]: used for [undefined] only. *)
Definition orDefault {A} (d : A) (v : option A) : A :=
  match v with
  | Some a => a
  | None => d
  end.

(** Identity of an object: the module's own literal, an object handed in by
    the caller, the n-th params object the router built, or the n-th object
    the provider allocated. *)
Inductive Oid : Type :=
| ModuleObj
| CallerObj (n : nat)
| RouterObj (n : nat)
| ProviderObj (n : nat).

#[global] Instance Oid_eq_dec : EqDecision Oid.
Proof. solve_decision. Defined.

(** A reference to an object: who it is and what it holds when read. *)
Record Obj (A : Type) : Type := mkObj { oid : Oid; content : A }.
Arguments mkObj {A} oid content.
Arguments oid {A} o.
Arguments content {A} o.

(** [Object.is] on values that are [undefined] or an object: React compares
    each entry of a dependency array with it. *)
Definition Object_is {A} (x y : option (Obj A)) : bool :=
  match x, y with
  | None, None => true
  | Some a, Some b => bool_decide (oid a = oid b)
  | _, _ => false
  end.

(** [===] on [string | undefined]. *)
Definition strictEq (x y : option string) : bool := bool_decide (x = y).

(** ** Entity references and route parameters *)

(** [CompoundEntityRef] as it is found at run time: the declared type has
    three strings, the object built from the route may hold [undefined]. *)
Record CompoundEntityRef : Type := {
  kind : option string;
  namespace : option string;
  name : option string;
}.

(** The declared type of [CompoundEntityRef]: every field is a string. *)
Definition wellTyped (r : CompoundEntityRef) : Prop :=
  is_Some (kind r) ∧ is_Some (namespace r) ∧ is_Some (name r).

(** What [useParams()] returns: [Readonly<Params<string>>], read at the four
    keys the hook destructures; [splat] is the catch-all key ['*']. *)
Record Params : Type := {
  param_namespace : option string;
  param_kind : option string;
  param_name : option string;
  splat : option string;
}.

(** ** Load-states and requests *)

(** [AsyncState<T>] of react-use. *)
Record AsyncState (T : Type) : Type := {
  loading : bool;
  error : option JsError;
  value : option T;
}.
Arguments loading {T} a.
Arguments error {T} a.
Arguments value {T} a.

(** [{ loading: true }] *)
Definition pending {T} : AsyncState T :=
  {| loading := true; error := None; value := None |}.

(** The two methods of [techdocsApi] the provider calls. *)
Inductive ApiMethod : Type :=
| getTechDocsMetadata
| getEntityMetadata.

(** One call made on [techdocsApi]: the method, its argument, and the call
    number the load-state that made it gave it. *)
Record Request : Type := {
  method : ApiMethod;
  argument : option (Obj CompoundEntityRef);
  callId : nat;
}.

(** The hook cells of one [useAsync(fn, [entityRef])]: the dependency array of
    the last run of its effect ([None] before the first run), the counter
    [lastCallId] and the load-state. *)
Record AsyncCell (T : Type) : Type := {
  deps : option (option (Obj CompoundEntityRef));
  lastCallId : nat;
  state : AsyncState T;
}.
Arguments deps {T} a.
Arguments lastCallId {T} a.
Arguments state {T} a.

Definition freshAsyncCell {T} : AsyncCell T :=
  {| deps := None; lastCallId := 0; state := pending |}.

(** [SetStateAction<A>]: a new state, or a function of the previous one. *)
Inductive SetStateAction (A : Type) : Type :=
| NewState (a : A)
| Updater (f : A → A).
Arguments NewState {A} a.
Arguments Updater {A} f.

Definition applyAction {A} (a : SetStateAction A) (prev : A) : A :=
  match a with
  | NewState x => x
  | Updater f => f prev
  end.

(** ** What the file imports but does not define *)

(** The payload types of [./types], the DOM's [ShadowRoot], rendered
    elements, and [stringifyEntityRef] of [@backstage/catalog-model].  The
    formatter is applied to whatever the props hold, [undefined] included,
    and may throw. *)
Class Imports : Type := {
  TechDocsMetadata : Type;
  TechDocsEntityMetadata : Type;
  ShadowRoot : Type;
  ReactNode : Type;
  stringifyEntityRef : option CompoundEntityRef → result string;
}.

Section Model.
Context `{Imports}.

(** ** Prop equality: lines 43-54 *)

Definition areEntityRefsEqual
    (prevEntityRef nextEntityRef : option (Obj CompoundEntityRef)) : result bool :=
  result_bind (stringifyEntityRef (content <$> prevEntityRef)) (λ prev,
  result_bind (stringifyEntityRef (content <$> nextEntityRef)) (λ next,
  Return (bool_decide (prev = next)))).

Definition arePathsEqual (prevPath nextPath : option string) : bool :=
  strictEq prevPath nextPath.

(** ** Hook cells of one provider instance *)

(** The object the [useMemo] callback of line 121 returns. *)
Record DefaultState : Type := {
  default_path : string;
  default_entityRef : Obj CompoundEntityRef;
}.

(** The cells, in call order: the [useMemo] of line 121 with the dependency
    it was computed for, the two [useAsync], the three [useState] ([None]
    until the first render stores the initial state). *)
Record Hooks : Type := {
  defaultStateMemo : option (Obj Params * DefaultState);
  metadataAsync : AsyncCell TechDocsMetadata;
  entityMetadataAsync : AsyncCell TechDocsEntityMetadata;
  titleState : option string;
  subtitleState : option string;
  shadowRootState : option (option ShadowRoot);
}.

Definition initialHooks : Hooks :=
  {| defaultStateMemo := None;
     metadataAsync := freshAsyncCell;
     entityMetadataAsync := freshAsyncCell;
     titleState := None;
     subtitleState := None;
     shadowRootState := None |}.

Definition setDefaultStateMemo (c : option (Obj Params * DefaultState)) (h : Hooks) : Hooks :=
  {| defaultStateMemo := c;
     metadataAsync := metadataAsync h;
     entityMetadataAsync := entityMetadataAsync h;
     titleState := titleState h;
     subtitleState := subtitleState h;
     shadowRootState := shadowRootState h |}.

Definition setMetadataAsync (c : AsyncCell TechDocsMetadata) (h : Hooks) : Hooks :=
  {| defaultStateMemo := defaultStateMemo h;
     metadataAsync := c;
     entityMetadataAsync := entityMetadataAsync h;
     titleState := titleState h;
     subtitleState := subtitleState h;
     shadowRootState := shadowRootState h |}.

Definition setEntityMetadataAsync (c : AsyncCell TechDocsEntityMetadata) (h : Hooks) : Hooks :=
  {| defaultStateMemo := defaultStateMemo h;
     metadataAsync := metadataAsync h;
     entityMetadataAsync := c;
     titleState := titleState h;
     subtitleState := subtitleState h;
     shadowRootState := shadowRootState h |}.

Definition setTitleState (c : option string) (h : Hooks) : Hooks :=
  {| defaultStateMemo := defaultStateMemo h;
     metadataAsync := metadataAsync h;
     entityMetadataAsync := entityMetadataAsync h;
     titleState := c;
     subtitleState := subtitleState h;
     shadowRootState := shadowRootState h |}.

Definition setSubtitleState (c : option string) (h : Hooks) : Hooks :=
  {| defaultStateMemo := defaultStateMemo h;
     metadataAsync := metadataAsync h;
     entityMetadataAsync := entityMetadataAsync h;
     titleState := titleState h;
     subtitleState := c;
     shadowRootState := shadowRootState h |}.

Definition setShadowRootState (c : option (option ShadowRoot)) (h : Hooks) : Hooks :=
  {| defaultStateMemo := defaultStateMemo h;
     metadataAsync := metadataAsync h;
     entityMetadataAsync := entityMetadataAsync h;
     titleState := titleState h;
     subtitleState := subtitleState h;
     shadowRootState := c |}.

(** ** The exposed value: lines 59-86 *)

(** [Dispatch<SetStateAction<A>>]: the closure [() => {}] of the default
    value, or the setter React binds to one [useState] cell, given by how it
    reads and writes that cell. *)
Inductive Dispatch (A : Type) : Type :=
| Noop
| Bound (get : Hooks → option A) (set : option A → Hooks → Hooks) (init : A).
#[global] Arguments Noop {A}.
#[global] Arguments Bound {A} get set init.

(** [TechDocsReaderPageValue]; the deprecated optional [onReady] is set
    nowhere in the file and is left out. *)
Record TechDocsReaderPageValue : Type := {
  metadata : AsyncState TechDocsMetadata;
  path : string;
  entityRef : option (Obj CompoundEntityRef);
  entityMetadata : AsyncState TechDocsEntityMetadata;
  shadowRoot : option ShadowRoot;
  setShadowRoot : Dispatch (option ShadowRoot);
  title : string;
  setTitle : Dispatch string;
  subtitle : string;
  setSubtitle : Dispatch string;
}.

Definition defaultTechDocsReaderPageValue : TechDocsReaderPageValue :=
  {| path := "";
     title := "";
     subtitle := "";
     setTitle := Noop;
     setSubtitle := Noop;
     setShadowRoot := Noop;
     metadata := pending;
     entityMetadata := pending;
     entityRef :=
       Some (mkObj ModuleObj {| kind := Some ""; name := Some ""; namespace := Some "" |});
     shadowRoot := None |}.

(** Modelled from the spec: [createVersionedValueMap] and [atVersion] of
    [@backstage/version-bridge] are not in the sources; section 9 describes
    them as a registry mapping integer schema version to value, with explicit
    presence checks. *)
Definition createVersionedValueMap {V} (versions : gmap nat V) : gmap nat V := versions.

Definition atVersion {V} (versioned : gmap nat V) (version : nat) : option V :=
  versioned !! version.

(** ** Props: lines 97-114 *)

(** [children]: a node tree, or a render function called with the value. *)
Inductive Children : Type :=
| Node (n : ReactNode)
| RenderFunction (f : TechDocsReaderPageValue → ReactNode).

(** [TechDocsReaderPageProviderProps] as the object React hands over.  The
    declared type makes [entityRef] required; a caller that leaves it out is
    what the route-derived default is there for. *)
Record TechDocsReaderPageProviderProps : Type := {
  props_path : field string;
  props_entityRef : field (Obj CompoundEntityRef);
  children : Children;
}.

(** [TechDocsReaderPageState]: [Partial<Pick<Props, 'path' | 'entityRef'>>]. *)
Record TechDocsReaderPageState : Type := {
  init_path : field string;
  init_entityRef : field (Obj CompoundEntityRef);
}.

(** What the state hook returns: [Required<TechDocsReaderPageState>] by its
    declared type, either key possibly [undefined] at run time. *)
Record ResolvedState : Type := {
  state_path : option string;
  state_entityRef : option (Obj CompoundEntityRef);
}.

(** ** Rendering *)

(** What a render reads and writes besides its props: the hook cells, the
    number of objects allocated so far, and the calls made on [techdocsApi]. *)
Record Store : Type := {
  hooks : Hooks;
  nextOid : nat;
  sent : list Request;
}.

Definition withHooks (h : Hooks) (s : Store) : Store :=
  {| hooks := h; nextOid := nextOid s; sent := sent s |}.

(** A render: it reads the route context and threads the store. *)
Definition Render (A : Type) : Type := Obj Params → Store → A * Store.

#[global] Instance Render_ret : MRet Render := λ A a _ s, (a, s).

#[global] Instance Render_bind : MBind Render :=
  λ A B k m params s, let '(a, s') := m params s in k a params s'.

(** [useParams()] of react-router under a route match: the params object of
    the match, the same object on every call until the router matches again. *)
Definition useParams : Render (Obj Params) := λ params s, (params, s).

(** An object literal evaluated during render: a new identity. *)
Definition newObject {A} (c : A) : Render (Obj A) :=
  λ _ s, (mkObj (ProviderObj (nextOid s)) c,
          {| hooks := hooks s; nextOid := S (nextOid s); sent := sent s |}).

(** [useMemo(factory, [dep])] on the cell of line 121: the stored value is
    returned while the dependency is the same object. *)
Definition useMemo (factory : Render DefaultState) (dep : Obj Params) : Render DefaultState :=
  λ params s,
    let recompute :=
      let '(v, s') := factory params s in
      (v, withHooks (setDefaultStateMemo (Some (dep, v)) (hooks s')) s') in
    match defaultStateMemo (hooks s) with
    | Some (d, v) => if Object_is (Some d) (Some dep) then (v, s) else recompute
    | None => recompute
    end.

(** [useState(init)] on one cell: the first render stores [init]; the value
    comes with the setter bound to the cell. *)
Definition useState {A} (get : Hooks → option A) (set : option A → Hooks → Hooks) (init : A)
    : Render (A * Dispatch A) :=
  λ _ s,
    match get (hooks s) with
    | Some a => ((a, Bound get set init), s)
    | None => ((init, Bound get set init), withHooks (set (Some init) (hooks s)) s)
    end.

(** [techdocsApi.<method>(entityRef)], as the call it places. *)
Definition techdocsApi (m : ApiMethod) (arg : option (Obj CompoundEntityRef)) (id : nat) : Request :=
  {| method := m; argument := arg; callId := id |}.

Definition depsUnchanged {T} (cell : AsyncCell T) (dep : option (Obj CompoundEntityRef)) : bool :=
  match deps cell with
  | Some d => Object_is d dep
  | None => false
  end.

(** [useAsync(fn, [dep])] on one cell, rendered until its own effect has
    been absorbed.  react-use is a dependency, not a source of this file: the
    hook is [useState], [useCallback] and [useEffect] put together, so its
    effect runs after the first render and after each render whose dependency
    is another value under [Object.is], as React compares dependency arrays.
    The effect takes the next call number, flags the state as loading
    (keeping what it held) and calls [fn]. *)
Definition useAsync {T} (get : Hooks → AsyncCell T) (set : AsyncCell T → Hooks → Hooks)
    (fn : nat → Request) (dep : option (Obj CompoundEntityRef)) : Render (AsyncState T) :=
  λ _ s,
    let cell := get (hooks s) in
    if depsUnchanged cell dep then (state cell, s)
    else
      let id := S (lastCallId cell) in
      let st :=
        if loading (state cell) then state cell
        else {| loading := true; error := error (state cell); value := value (state cell) |} in
      (st, {| hooks := set {| deps := Some dep; lastCallId := id; state := st |} (hooks s);
              nextOid := nextOid s;
              sent := sent s ++ [fn id] |}).

(** Lines 116-127. *)
Definition useTechDocsReaderPageState (initialState : option TechDocsReaderPageState)
    : Render ResolvedState :=
  let initialState :=
    orDefault {| init_path := Absent; init_entityRef := Absent |} initialState in
  params ← useParams;
  defaultState ← useMemo
    (let namespace := param_namespace (content params) in
     let kind := param_kind (content params) in
     let name := param_name (content params) in
     let path := orDefault "" (splat (content params)) in
     entityRef ← newObject {| namespace := namespace; kind := kind; name := name |};
     mret {| default_path := path; default_entityRef := entityRef |})
    params;
  mret {| state_path := spread (Some (default_path defaultState)) (init_path initialState);
          state_entityRef :=
            spread (Some (default_entityRef defaultState)) (init_entityRef initialState) |}.

(** What the provider returns: the context value it provides and the
    children it renders under it. *)
Record Rendered : Type := {
  provided : gmap nat TechDocsReaderPageValue;
  subtree : ReactNode;
}.

(** Lines 134-173: the component wrapped by [memo]. *)
Definition TechDocsReaderPageProvider (props : TechDocsReaderPageProviderProps)
    : Render Rendered :=
  let rest := {| init_path := props_path props; init_entityRef := props_entityRef props |} in
  st ← useTechDocsReaderPageState (Some rest);
  let path := orDefault "" (state_path st) in
  let entityRef := state_entityRef st in
  metadata ← useAsync metadataAsync setMetadataAsync
    (techdocsApi getTechDocsMetadata entityRef) entityRef;
  entityMetadata ← useAsync entityMetadataAsync setEntityMetadataAsync
    (techdocsApi getEntityMetadata entityRef) entityRef;
  titleHook ← useState titleState setTitleState (title defaultTechDocsReaderPageValue);
  subtitleHook ← useState subtitleState setSubtitleState
    (subtitle defaultTechDocsReaderPageValue);
  shadowRootHook ← useState shadowRootState setShadowRootState
    (shadowRoot defaultTechDocsReaderPageValue);
  let value :=
    {| metadata := metadata;
       path := path;
       entityRef := entityRef;
       entityMetadata := entityMetadata;
       shadowRoot := shadowRootHook.1;
       setShadowRoot := shadowRootHook.2;
       title := titleHook.1;
       setTitle := titleHook.2;
       subtitle := subtitleHook.1;
       setSubtitle := subtitleHook.2 |} in
  let versionedValue := createVersionedValueMap {[ 1 := value ]} in
  mret {| provided := versionedValue;
          subtree :=
            match children props with
            | RenderFunction f => f value
            | Node n => n
            end |}.

(** Lines 174-179: the comparator given to [memo]. *)
Definition propsAreEqual (prevProps nextProps : TechDocsReaderPageProviderProps) : result bool :=
  result_bind
    (areEntityRefsEqual (read (props_entityRef prevProps)) (read (props_entityRef nextProps)))
    (λ sameRef,
      if sameRef
      then Return (arePathsEqual (read (props_path prevProps)) (read (props_path nextProps)))
      else Return false).

(** Lines 186-199.  [versionedContext] is what [useContext] finds: the value
    of the nearest provider, [undefined] when there is none. *)
Definition useTechDocsReaderPage
    (versionedContext : option (gmap nat TechDocsReaderPageValue))
    : result TechDocsReaderPageValue :=
  match versionedContext with
  | None => Return defaultTechDocsReaderPageValue
  | Some versionedContext =>
      match atVersion versionedContext 1 with
      | None => Throw "No context found for version 1."
      | Some context => Return context
      end
  end.

(** ** The mounted provider and what happens to it *)

(** A mounted provider: the props of its last render (what [memo] compares
    the next props with), its hook cells and what that render returned. *)
Record Instance : Type := {
  memoizedProps : TechDocsReaderPageProviderProps;
  cells : Hooks;
  rendered : Rendered;
}.

(** The page around the provider: the params object of the current route
    match and how many the router has built, the objects allocated and the
    API calls placed so far, and the provider once it is mounted.
    Unmounting is not modelled.  The provider sits under a route match, as
    the reader page mounts it.  Outside one react-router hands every render
    an empty params object of its own, so a provider whose props hold no
    [entityRef] key builds a new entity reference on every render there; the
    properties of renders that React schedules are therefore stated for props
    that hold the key, where the params object plays no part in the entity
    reference. *)
Record World : Type := {
  route : Obj Params;
  matches : nat;
  heap : nat;
  network : list Request;
  instance : option Instance;
}.

Definition start (params : Params) : World :=
  {| route := mkObj (RouterObj 0) params;
     matches := 1;
     heap := 0;
     network := [];
     instance := None |}.

(** Run the component on [props] and the cells [h], and commit the result. *)
Definition commit (props : TechDocsReaderPageProviderProps) (h : Hooks) (w : World) : World :=
  let '(out, s) :=
    TechDocsReaderPageProvider props (route w)
      {| hooks := h; nextOid := heap w; sent := network w |} in
  {| route := route w;
     matches := matches w;
     heap := nextOid s;
     network := sent s;
     instance := Some {| memoizedProps := props; cells := hooks s; rendered := out |} |}.

(** The parent renders the provider with [nextProps].  The first render
    mounts it.  Later ones go through [memo]: when the comparator answers
    true the instance is left as it is, with the props of its last render;
    an exception of the comparator leaves the render. *)
Definition parentRender (nextProps : TechDocsReaderPageProviderProps) (w : World) : result World :=
  match instance w with
  | None => Return (commit nextProps initialHooks w)
  | Some i =>
      result_bind (propsAreEqual (memoizedProps i) nextProps) (λ same,
        Return (if same then w else commit nextProps (cells i) w))
  end.

(** A render React schedules itself, after a state update or a change of a
    context the component reads: same props, no comparator, and under the
    route match of the page the params object of the last render. *)
Definition rerender (h : Hooks) (w : World) : World :=
  match instance w with
  | Some i => commit (memoizedProps i) h w
  | None => w
  end.

(** The router matches again: it builds a new params object, and the
    provider, which reads it through a context, is rendered again. *)
Definition navigate (params : Params) (w : World) : World :=
  let w' := {| route := mkObj (RouterObj (matches w)) params;
               matches := S (matches w);
               heap := heap w;
               network := network w;
               instance := instance w |} in
  match instance w with
  | Some i => rerender (cells i) w'
  | None => w'
  end.

(** Calling a setter: it returns nothing; a bound one updates its cell and
    has the provider rendered again. *)
Definition call {A} (d : Dispatch A) (a : SetStateAction A) (w : World) : unit * World :=
  match d with
  | Noop => (tt, w)
  | Bound get set init =>
      (tt, match instance w with
           | Some i =>
               rerender (set (Some (applyAction a (orDefault init (get (cells i))))) (cells i)) w
           | None => w
           end)
  end.

(** The load-state a settled promise leaves: [{ value, loading: false }] or
    [{ error, loading: false }]. *)
Definition settledState {T} (outcome : result T) : AsyncState T :=
  match outcome with
  | Return v => {| loading := false; error := None; value := Some v |}
  | Throw e => {| loading := false; error := Some e; value := None |}
  end.

(** Modelled from the spec: react-use's [useAsync] is not in the sources.
    Sections 4.1 and 5 describe it: each fetch is tracked as a load-state
    (pending, resolved, failed), a completion updates its own piece of state
    and triggers a render, and the result of a fetch that was superseded is
    not used.  The promise of call [id] settles; it is taken when [id] is
    still the last call of its cell. *)
Definition settle {T} (id : nat) (outcome : result T) (cell : AsyncCell T) : option (AsyncCell T) :=
  if bool_decide (id = lastCallId cell)
  then Some {| deps := deps cell; lastCallId := lastCallId cell; state := settledState outcome |}
  else None.

Definition metadataSettled (id : nat) (outcome : result TechDocsMetadata) (w : World) : World :=
  match instance w with
  | Some i =>
      match settle id outcome (metadataAsync (cells i)) with
      | Some cell => rerender (setMetadataAsync cell (cells i)) w
      | None => w
      end
  | None => w
  end.

Definition entityMetadataSettled (id : nat) (outcome : result TechDocsEntityMetadata)
    (w : World) : World :=
  match instance w with
  | Some i =>
      match settle id outcome (entityMetadataAsync (cells i)) with
      | Some cell => rerender (setEntityMetadataAsync cell (cells i)) w
      | None => w
      end
  | None => w
  end.

(** The context a descendant of the provider finds with [useContext]. *)
Definition context (w : World) : option (gmap nat TechDocsReaderPageValue) :=
  (λ i, provided (rendered i)) <$> instance w.

(** The value a descendant reads at schema version 1. *)
Definition exposed (w : World) : option TechDocsReaderPageValue :=
  context w ≫= λ versioned, atVersion versioned 1.

(** What can happen to the page. *)
Inductive Event : Type :=
| ParentRenders (props : TechDocsReaderPageProviderProps)
| RouteChanges (params : Params)
| CallsSetTitle (a : SetStateAction string)
| CallsSetSubtitle (a : SetStateAction string)
| CallsSetShadowRoot (a : SetStateAction (option ShadowRoot))
| MetadataSettles (id : nat) (outcome : result TechDocsMetadata)
| EntityMetadataSettles (id : nat) (outcome : result TechDocsEntityMetadata).

(** The setters are taken from the value the provider exposes. *)
Definition step (e : Event) (w : World) : result World :=
  match e with
  | ParentRenders props => parentRender props w
  | RouteChanges params => Return (navigate params w)
  | CallsSetTitle a =>
      Return (match exposed w with Some v => (call (setTitle v) a w).2 | None => w end)
  | CallsSetSubtitle a =>
      Return (match exposed w with Some v => (call (setSubtitle v) a w).2 | None => w end)
  | CallsSetShadowRoot a =>
      Return (match exposed w with Some v => (call (setShadowRoot v) a w).2 | None => w end)
  | MetadataSettles id outcome => Return (metadataSettled id outcome w)
  | EntityMetadataSettles id outcome => Return (entityMetadataSettled id outcome w)
  end.

(** The worlds a page can be in: it starts with no provider mounted. *)
Inductive reachable : World → Prop :=
| reachable_start params : reachable (start params)
| reachable_step e w w' : reachable w → step e w = Return w' → reachable w'.

(** ** Closed forms of the hooks

    What each hook leaves in its cell and returns, written without the
    store; the equations of the next section relate them to the hooks. *)

(** The object the [useMemo] callback builds for [params], its entity
    reference being the n-th allocated object. *)
Definition routeDefault (params : Obj Params) (n : nat) : DefaultState :=
  {| default_path := orDefault "" (splat (content params));
     default_entityRef :=
       mkObj (ProviderObj n)
         {| namespace := param_namespace (content params);
            kind := param_kind (content params);
            name := param_name (content params) |} |}.

Definition memoHit (params : Obj Params) (memo : option (Obj Params * DefaultState)) : bool :=
  match memo with
  | Some (d, _) => Object_is (Some d) (Some params)
  | None => false
  end.

(** The memo cell after a render under [params]. *)
Definition memoAfter (params : Obj Params) (n : nat) (memo : option (Obj Params * DefaultState))
    : Obj Params * DefaultState :=
  match memo with
  | Some (d, v) =>
      if Object_is (Some d) (Some params) then (d, v) else (params, routeDefault params n)
  | None => (params, routeDefault params n)
  end.

Definition heapAfter (params : Obj Params) (n : nat) (memo : option (Obj Params * DefaultState))
    : nat :=
  if memoHit params memo then n else S n.

(** An async cell after a render with dependency [dep], and the calls its
    effect placed. *)
Definition asyncAfter {T} (cell : AsyncCell T) (dep : option (Obj CompoundEntityRef))
    : AsyncCell T :=
  if depsUnchanged cell dep then cell
  else {| deps := Some dep;
          lastCallId := S (lastCallId cell);
          state :=
            if loading (state cell) then state cell
            else {| loading := true; error := error (state cell); value := value (state cell) |} |}.

Definition asyncCalls {T} (cell : AsyncCell T) (fn : nat → Request)
    (dep : option (Obj CompoundEntityRef)) : list Request :=
  if depsUnchanged cell dep then [] else [fn (S (lastCallId cell))].

(** The value of lines 154-165, from what the hooks returned. *)
Definition valueOf (props : TechDocsReaderPageProviderProps) (ds : DefaultState)
    (m : AsyncState TechDocsMetadata) (em : AsyncState TechDocsEntityMetadata)
    (t st : string) (sr : option ShadowRoot) : TechDocsReaderPageValue :=
  {| metadata := m;
     path := orDefault "" (spread (Some (default_path ds)) (props_path props));
     entityRef := spread (Some (default_entityRef ds)) (props_entityRef props);
     entityMetadata := em;
     shadowRoot := sr;
     setShadowRoot := Bound shadowRootState setShadowRootState None;
     title := t;
     setTitle := Bound titleState setTitleState "";
     subtitle := st;
     setSubtitle := Bound subtitleState setSubtitleState "" |}.

(** The element of lines 166-172 around it. *)
Definition renderedOf (props : TechDocsReaderPageProviderProps) (v : TechDocsReaderPageValue)
    : Rendered :=
  {| provided := {[ 1 := v ]};
     subtree := match children props with RenderFunction f => f v | Node n => n end |}.

(** ** Invariant of a mounted provider *)

(** A stored default state is the one built for the params object stored
    with it, and that object is no other match than [params] under the same
    identity. *)
Definition memoSound (params : Obj Params) (memo : option (Obj Params * DefaultState)) : Prop :=
  match memo with
  | Some (d, ds) => (∃ n, ds = routeDefault d n) ∧ (oid d = oid params → d = params)
  | None => True
  end.

(** The current params object is one the router has built. *)
Definition routed (w : World) : Prop :=
  ∃ k, oid (route w) = RouterObj k ∧ k < matches w.

(** Between events a mounted provider has nothing left to do: its memo cell
    was computed for the object the route holds, both effects have run for
    the entity reference it exposes, the state cells are filled, and what it
    rendered is the value of those cells. *)
Definition quiescent (w : World) : Prop :=
  routed w ∧
  ∀ i, instance w = Some i →
    ∃ n t st sr,
      defaultStateMemo (cells i) = Some (route w, routeDefault (route w) n) ∧
      titleState (cells i) = Some t ∧
      subtitleState (cells i) = Some st ∧
      shadowRootState (cells i) = Some sr ∧
      let v := valueOf (memoizedProps i) (routeDefault (route w) n)
                 (state (metadataAsync (cells i))) (state (entityMetadataAsync (cells i)))
                 t st sr in
      depsUnchanged (metadataAsync (cells i)) (entityRef v) = true ∧
      depsUnchanged (entityMetadataAsync (cells i)) (entityRef v) = true ∧
      rendered i = renderedOf (memoizedProps i) v.

(** ** The log of API calls and the objects allocated *)

(** The two calls the effects place when they run for the k-th time after
    the first. *)
Definition fetchPair (k : nat) (e : option (Obj CompoundEntityRef)) : list Request :=
  [techdocsApi getTechDocsMetadata e (S k); techdocsApi getEntityMetadata e (S k)].

(** The calls placed when the effects ran for these entity references, one
    after the other. *)
Definition fetchLog (args : list (option (Obj CompoundEntityRef))) : list Request :=
  mjoin (imap fetchPair args).

(** The log holds nothing before the mount; after it, it is the log of the
    runs of the two effects, which ran together each time, last for the
    dependency both cells hold. *)
Definition paired (w : World) : Prop :=
  match instance w with
  | None => network w = []
  | Some i =>
      ∃ args d,
        network w = fetchLog (args ++ [d]) ∧
        deps (metadataAsync (cells i)) = Some d ∧
        deps (entityMetadataAsync (cells i)) = Some d ∧
        lastCallId (metadataAsync (cells i)) = S (length args) ∧
        lastCallId (entityMetadataAsync (cells i)) = S (length args)
  end.

(** The entity reference in the memo cell is an object the provider has
    allocated. *)
Definition allocated (w : World) : Prop :=
  ∀ i d ds,
    instance w = Some i → defaultStateMemo (cells i) = Some (d, ds) →
    ∃ n, oid (default_entityRef ds) = ProviderObj n ∧ n < heap w.

End Model.

(** ** A page to run the model on *)

(** A formatter in the shape of the catalog's, [kind:namespace/name] with
    [default] for a missing namespace; it throws where a field it needs is
    [undefined]. *)
Definition sampleStringify (r : option CompoundEntityRef) : result string :=
  match r with
  | Some {| kind := Some k; namespace := ns; name := Some n |} =>
      Return (k +:+ ":" +:+ orDefault "default" ns +:+ "/" +:+ n)
  | _ => Throw "TypeError: Cannot read properties of undefined"
  end.

(** Payloads as strings, nodes as markup. *)
Definition sampleImports : Imports :=
  {| TechDocsMetadata := string;
     TechDocsEntityMetadata := string;
     ShadowRoot := unit;
     ReactNode := string;
     stringifyEntityRef := sampleStringify |}.

(** The route [/docs/default/Component/foo/overview]. *)
Definition componentRoute : Params :=
  {| param_namespace := Some "default";
     param_kind := Some "Component";
     param_name := Some "foo";
     splat := Some "overview" |}.

(** Objects of the caller that hold the same three strings, one for each
    [n]. *)
Definition fooRef (n : nat) : Obj CompoundEntityRef :=
  mkObj (CallerObj n)
    {| kind := Some "Component"; namespace := Some "default"; name := Some "foo" |}.

Definition barRef : Obj CompoundEntityRef :=
  mkObj (CallerObj 3)
    {| kind := Some "Component"; namespace := Some "default"; name := Some "bar" |}.

Definition pageProps (p : field string) (r : field (Obj CompoundEntityRef))
    : @TechDocsReaderPageProviderProps sampleImports :=
  {| props_path := p; props_entityRef := r; children := @Node sampleImports "<Reader/>" |}.

(** The reader page of the specification's example: the entity reference is
    given, the path is not. *)
Definition componentProps : @TechDocsReaderPageProviderProps sampleImports :=
  pageProps Absent (Given (fooRef 1)).

Definition mount (props : @TechDocsReaderPageProviderProps sampleImports) (params : Params)
    : @World sampleImports :=
  commit props initialHooks (start params).

Definition overviewPage : @World sampleImports := mount componentProps componentRoute.

(** The page after an event, where the event does not throw. *)
Definition after (ev : @Event sampleImports) (w : @World sampleImports) : @World sampleImports :=
  match step ev w with
  | Return w' => w'
  | Throw _ => w
  end.

(** The overview page once a reader component has set its title. *)
Definition titledPage : @World sampleImports :=
  after (CallsSetTitle (NewState "Guide")) overviewPage.

(** A page whose children are a render function showing the title. *)
Definition headingProps : @TechDocsReaderPageProviderProps sampleImports :=
  {| props_path := Absent;
     props_entityRef := Given (fooRef 1);
     children := @RenderFunction sampleImports (λ v, "<h1>" +:+ title v +:+ "</h1>") |}.

Definition headingPage : @World sampleImports :=
  after (CallsSetTitle (NewState "Guide")) (mount headingProps componentRoute).

(** A page mounted without entity reference: it comes from the route. *)
Definition routedPage : @World sampleImports := mount (pageProps Absent Absent) componentRoute.

(** Closes a goal that holds by running the model. *)
Ltac run := vm_compute; reflexivity.

(** Another page of the same entity's documentation. *)
Definition apiRoute : Params :=
  {| param_namespace := Some "default";
     param_kind := Some "Component";
     param_name := Some "foo";
     splat := Some "api" |}.

Section Properties.
Context `{Imports}.

(** ** [Object.is] is an equivalence *)

Lemma Object_is_refl {A} (x : option (Obj A)) : Object_is x x = true.
Proof. destruct x; simpl; [apply bool_decide_eq_true_2|]; done. Qed.

Lemma Object_is_congr {A} (x y z : option (Obj A)) :
  Object_is x y = true → Object_is x z = Object_is y z.
Proof.
  destruct x as [a|], y as [b|], z as [c|]; simpl; try done.
  intros E%bool_decide_eq_true. by rewrite E.
Qed.

(** ** The hooks in closed form *)

Lemma useTechDocsReaderPageState_eq init params s :
  useTechDocsReaderPageState (Some init) params s =
  let m := memoAfter params (nextOid s) (defaultStateMemo (hooks s)) in
  ({| state_path := spread (Some (default_path m.2)) (init_path init);
      state_entityRef := spread (Some (default_entityRef m.2)) (init_entityRef init) |},
   {| hooks := setDefaultStateMemo (Some m) (hooks s);
      nextOid := heapAfter params (nextOid s) (defaultStateMemo (hooks s));
      sent := sent s |}).
Proof.
  destruct s as [[memo mc ec t st sr] n snt].
  unfold useTechDocsReaderPageState, useMemo, useParams, newObject, mbind, Render_bind, mret,
    Render_ret, memoAfter, heapAfter, memoHit, withHooks, setDefaultStateMemo; simpl.
  destruct memo as [[d v]|]; [destruct (bool_decide (oid d = oid params))|]; reflexivity.
Qed.

Lemma useAsync_eq {T} (get : Hooks → AsyncCell T) set fn dep params s :
  (∀ h, set (get h) h = h) →
  useAsync get set fn dep params s =
  (state (asyncAfter (get (hooks s)) dep),
   {| hooks := set (asyncAfter (get (hooks s)) dep) (hooks s);
      nextOid := nextOid s;
      sent := sent s ++ asyncCalls (get (hooks s)) fn dep |}).
Proof.
  intros Hlens. unfold useAsync, asyncAfter, asyncCalls.
  destruct (depsUnchanged (get (hooks s)) dep); [|reflexivity].
  rewrite Hlens, app_nil_r. by destruct s.
Qed.

Lemma useState_eq {A} (get : Hooks → option A) set init params s :
  (∀ h a, get h = Some a → set (Some a) h = h) →
  useState get set init params s =
  ((orDefault init (get (hooks s)), Bound get set init),
   withHooks (set (Some (orDefault init (get (hooks s)))) (hooks s)) s).
Proof.
  intros Hlens. unfold useState, withHooks.
  destruct (get (hooks s)) eqn:E; simpl; [|reflexivity].
  rewrite (Hlens _ _ E). by destruct s.
Qed.

(** One render, whatever the cells hold: what it returns and what it leaves. *)
Lemma provider_eq props params s :
  TechDocsReaderPageProvider props params s =
  let memo := memoAfter params (nextOid s) (defaultStateMemo (hooks s)) in
  let e := spread (Some (default_entityRef memo.2)) (props_entityRef props) in
  let mc := asyncAfter (metadataAsync (hooks s)) e in
  let ec := asyncAfter (entityMetadataAsync (hooks s)) e in
  let t := orDefault "" (titleState (hooks s)) in
  let st := orDefault "" (subtitleState (hooks s)) in
  let sr := orDefault None (shadowRootState (hooks s)) in
  (renderedOf props (valueOf props memo.2 (state mc) (state ec) t st sr),
   {| hooks := {| defaultStateMemo := Some memo;
                  metadataAsync := mc;
                  entityMetadataAsync := ec;
                  titleState := Some t;
                  subtitleState := Some st;
                  shadowRootState := Some sr |};
      nextOid := heapAfter params (nextOid s) (defaultStateMemo (hooks s));
      sent := (sent s ++ asyncCalls (metadataAsync (hooks s)) (techdocsApi getTechDocsMetadata e) e)
              ++ asyncCalls (entityMetadataAsync (hooks s)) (techdocsApi getEntityMetadata e) e |}).
Proof.
  destruct s as [[memo mc ec t st sr] n snt].
  unfold TechDocsReaderPageProvider, mbind, Render_bind.
  rewrite useTechDocsReaderPageState_eq.
  cbn [hooks nextOid sent fst snd state_path state_entityRef init_path init_entityRef
       setDefaultStateMemo defaultStateMemo metadataAsync entityMetadataAsync titleState
       subtitleState shadowRootState].
  rewrite useAsync_eq by (by intros []).
  cbn [hooks nextOid sent fst snd setMetadataAsync defaultStateMemo metadataAsync
       entityMetadataAsync titleState subtitleState shadowRootState].
  rewrite useAsync_eq by (by intros []).
  cbn [hooks nextOid sent fst snd setEntityMetadataAsync defaultStateMemo metadataAsync
       entityMetadataAsync titleState subtitleState shadowRootState].
  rewrite !useState_eq by (by intros [] ? [= ->]).
  reflexivity.
Qed.

Lemma asyncAfter_unchanged {T} (cell : AsyncCell T) dep :
  depsUnchanged (asyncAfter cell dep) dep = true.
Proof.
  unfold asyncAfter. destruct (depsUnchanged cell dep) eqn:E; [done|].
  unfold depsUnchanged; simpl. apply Object_is_refl.
Qed.

Lemma asyncAfter_idle {T} (cell : AsyncCell T) dep :
  depsUnchanged cell dep = true → asyncAfter cell dep = cell ∧ ∀ fn, asyncCalls cell fn dep = [].
Proof. unfold asyncAfter, asyncCalls. by intros ->. Qed.

Lemma depsUnchanged_congr {T} (cell : AsyncCell T) dep dep' :
  depsUnchanged cell dep = true → depsUnchanged cell dep' = Object_is dep dep'.
Proof.
  unfold depsUnchanged. destruct (deps cell) as [d|]; [|done].
  apply Object_is_congr.
Qed.

Lemma memoAfter_sound params n memo :
  memoSound params memo →
  ∃ n', memoAfter params n memo = (params, routeDefault params n').
Proof.
  unfold memoAfter, memoSound. destruct memo as [[d v]|]; [|by eexists].
  intros [[n' ->] Hd]. simpl. case_bool_decide as E; [|by eexists].
  rewrite (Hd E). by eexists.
Qed.

(** ** One commit *)

Lemma commit_eq props h w :
  commit props h w =
  let memo := memoAfter (route w) (heap w) (defaultStateMemo h) in
  let e := spread (Some (default_entityRef memo.2)) (props_entityRef props) in
  let mc := asyncAfter (metadataAsync h) e in
  let ec := asyncAfter (entityMetadataAsync h) e in
  let t := orDefault "" (titleState h) in
  let st := orDefault "" (subtitleState h) in
  let sr := orDefault None (shadowRootState h) in
  {| route := route w;
     matches := matches w;
     heap := heapAfter (route w) (heap w) (defaultStateMemo h);
     network := (network w ++ asyncCalls (metadataAsync h) (techdocsApi getTechDocsMetadata e) e)
                ++ asyncCalls (entityMetadataAsync h) (techdocsApi getEntityMetadata e) e;
     instance :=
       Some {| memoizedProps := props;
               cells := {| defaultStateMemo := Some memo;
                           metadataAsync := mc;
                           entityMetadataAsync := ec;
                           titleState := Some t;
                           subtitleState := Some st;
                           shadowRootState := Some sr |};
               rendered := renderedOf props (valueOf props memo.2 (state mc) (state ec) t st sr) |} |}.
Proof. unfold commit. by rewrite provider_eq. Qed.

Lemma exposed_commit props h w :
  exposed (commit props h w) =
  let memo := memoAfter (route w) (heap w) (defaultStateMemo h) in
  let e := spread (Some (default_entityRef memo.2)) (props_entityRef props) in
  Some (valueOf props memo.2
          (state (asyncAfter (metadataAsync h) e)) (state (asyncAfter (entityMetadataAsync h) e))
          (orDefault "" (titleState h)) (orDefault "" (subtitleState h))
          (orDefault None (shadowRootState h))).
Proof.
  rewrite commit_eq. unfold exposed, context, atVersion, renderedOf; simpl.
  apply lookup_singleton_eq.
Qed.

Lemma commit_quiescent props h w :
  routed w → memoSound (route w) (defaultStateMemo h) → quiescent (commit props h w).
Proof.
  intros Hr Hs. rewrite commit_eq. split; [done|]. intros i [= <-]; simpl.
  destruct (memoAfter_sound (route w) (heap w) _ Hs) as [n ->]; simpl.
  exists n. do 3 eexists.
  repeat split; try done; apply asyncAfter_unchanged.
Qed.

Lemma quiescent_exposed w i :
  quiescent w → instance w = Some i →
  ∃ n t st sr,
    defaultStateMemo (cells i) = Some (route w, routeDefault (route w) n) ∧
    titleState (cells i) = Some t ∧
    subtitleState (cells i) = Some st ∧
    shadowRootState (cells i) = Some sr ∧
    depsUnchanged (metadataAsync (cells i))
      (spread (Some (default_entityRef (routeDefault (route w) n)))
         (props_entityRef (memoizedProps i))) = true ∧
    depsUnchanged (entityMetadataAsync (cells i))
      (spread (Some (default_entityRef (routeDefault (route w) n)))
         (props_entityRef (memoizedProps i))) = true ∧
    exposed w = Some (valueOf (memoizedProps i) (routeDefault (route w) n)
                        (state (metadataAsync (cells i)))
                        (state (entityMetadataAsync (cells i))) t st sr).
Proof.
  intros [_ Hw] Hi.
  destruct (Hw i Hi) as (n & t & st & sr & Hm & Ht & Hst & Hsr & Hd1 & Hd2 & Hr).
  exists n, t, st, sr. repeat split; try done.
  unfold exposed, context, atVersion. rewrite Hi; simpl. rewrite Hr; simpl.
  apply lookup_singleton_eq.
Qed.

(** ** Every reachable world is quiescent *)

Lemma quiescent_memoSound w i :
  quiescent w → instance w = Some i → memoSound (route w) (defaultStateMemo (cells i)).
Proof.
  intros [_ Hw] Hi. destruct (Hw i Hi) as (n & ? & ? & ? & -> & _).
  split; [by exists n|done].
Qed.

Lemma rerender_quiescent h w i :
  routed w → instance w = Some i → memoSound (route w) (defaultStateMemo h) →
  quiescent (rerender h w).
Proof. intros Hr Hi Hs. unfold rerender. rewrite Hi. by apply commit_quiescent. Qed.

Lemma call_quiescent {A} (get : Hooks → option A) set init a w :
  (∀ x h, defaultStateMemo (set x h) = defaultStateMemo h) →
  quiescent w → quiescent (call (Bound get set init) a w).2.
Proof.
  intros Hframe Hw. simpl. destruct (instance w) as [i|] eqn:Hi; [|done].
  apply (rerender_quiescent _ _ i); [apply Hw|done|].
  rewrite Hframe. by apply quiescent_memoSound.
Qed.

Lemma navigate_quiescent params w : quiescent w → quiescent (navigate params w).
Proof.
  intros Hw. destruct Hw as [[k [Hk Hlt]] Hi]. unfold navigate.
  assert (routed {| route := mkObj (RouterObj (matches w)) params;
                    matches := S (matches w);
                    heap := heap w;
                    network := network w;
                    instance := instance w |}) as Hr by (exists (matches w); simpl; split; [done|lia]).
  destruct (instance w) as [i|] eqn:Ei; [|by split].
  apply (rerender_quiescent _ _ i); [done|done|]; simpl.
  destruct (Hi i eq_refl) as (n & ? & ? & ? & -> & _). split; [by exists n|].
  rewrite Hk; simpl. intros [= ->]. lia.
Qed.

Lemma step_quiescent e w w' : quiescent w → step e w = Return w' → quiescent w'.
Proof.
  intros Hw. destruct e as [props|params|a|a|a|id outcome|id outcome]; simpl.
  - unfold parentRender. destruct (instance w) as [i|] eqn:Hi.
    + destruct (propsAreEqual (memoizedProps i) props) as [[]|]; simpl; intros [= <-]; [done|].
      apply commit_quiescent; [apply Hw|]. by apply quiescent_memoSound.
    + intros [= <-]. apply commit_quiescent; [apply Hw|done].
  - intros [= <-]. by apply navigate_quiescent.
  - intros [= <-]. destruct (exposed w) as [v|] eqn:Hv; [|done].
    destruct (instance w) as [i|] eqn:Hi; [|by unfold exposed, context in Hv; rewrite Hi in Hv].
    destruct (quiescent_exposed w i Hw Hi) as (? & ? & ? & ? & _ & _ & _ & _ & _ & _ & Hv').
    rewrite Hv in Hv'. injection Hv' as ->. by apply call_quiescent.
  - intros [= <-]. destruct (exposed w) as [v|] eqn:Hv; [|done].
    destruct (instance w) as [i|] eqn:Hi; [|by unfold exposed, context in Hv; rewrite Hi in Hv].
    destruct (quiescent_exposed w i Hw Hi) as (? & ? & ? & ? & _ & _ & _ & _ & _ & _ & Hv').
    rewrite Hv in Hv'. injection Hv' as ->. by apply call_quiescent.
  - intros [= <-]. destruct (exposed w) as [v|] eqn:Hv; [|done].
    destruct (instance w) as [i|] eqn:Hi; [|by unfold exposed, context in Hv; rewrite Hi in Hv].
    destruct (quiescent_exposed w i Hw Hi) as (? & ? & ? & ? & _ & _ & _ & _ & _ & _ & Hv').
    rewrite Hv in Hv'. injection Hv' as ->. by apply call_quiescent.
  - intros [= <-]. unfold metadataSettled. destruct (instance w) as [i|] eqn:Hi; [|done].
    destruct (settle id outcome _); [|done].
    apply (rerender_quiescent _ _ i); [apply Hw|done|]. by apply quiescent_memoSound.
  - intros [= <-]. unfold entityMetadataSettled. destruct (instance w) as [i|] eqn:Hi; [|done].
    destruct (settle id outcome _); [|done].
    apply (rerender_quiescent _ _ i); [apply Hw|done|]. by apply quiescent_memoSound.
Qed.

Lemma reachable_quiescent w : reachable w → quiescent w.
Proof.
  induction 1 as [params|e w w' _ IH Hstep].
  - split; [exists 0; simpl; split; [done|lia]|by intros i].
  - by apply step_quiescent with e w.
Qed.

Lemma exposed_instance w v : exposed w = Some v → ∃ i, instance w = Some i.
Proof.
  unfold exposed, context. destruct (instance w) as [i|]; [by exists i|done].
Qed.

Lemma commit_network props h w e :
  depsUnchanged (metadataAsync h) e = true →
  depsUnchanged (entityMetadataAsync h) e = true →
  ∃ v, exposed (commit props h w) = Some v ∧
    network (commit props h w) =
    network w ++
      if Object_is e (entityRef v) then []
      else [techdocsApi getTechDocsMetadata (entityRef v) (S (lastCallId (metadataAsync h)));
            techdocsApi getEntityMetadata (entityRef v) (S (lastCallId (entityMetadataAsync h)))].
Proof.
  intros Hm He. eexists. split; [apply exposed_commit|].
  rewrite commit_eq. cbn [network entityRef valueOf]. unfold asyncCalls.
  rewrite (depsUnchanged_congr _ _ _ Hm), (depsUnchanged_congr _ _ _ He).
  destruct (Object_is e _); [by rewrite !app_nil_r|by rewrite <- app_assoc].
Qed.

(** ** The consumer hook *)

(** C2. Called with no provider above it, on whatever page, the hook does
    not throw: it returns the default value, whose path, title and subtitle
    are empty strings, whose entity reference holds three empty strings, and
    whose two load-states are loading. *)
Theorem useTechDocsReaderPage_without_provider :
  useTechDocsReaderPage None = Return defaultTechDocsReaderPageValue ∧
  (∀ w : World,
     instance w = None →
     useTechDocsReaderPage (context w) = Return defaultTechDocsReaderPageValue) ∧
  path defaultTechDocsReaderPageValue = "" ∧
  title defaultTechDocsReaderPageValue = "" ∧
  subtitle defaultTechDocsReaderPageValue = "" ∧
  content <$> entityRef defaultTechDocsReaderPageValue
    = Some {| kind := Some ""; namespace := Some ""; name := Some "" |} ∧
  loading (metadata defaultTechDocsReaderPageValue) = true ∧
  loading (entityMetadata defaultTechDocsReaderPageValue) = true.
Proof.
  repeat split. intros w Hnone. unfold context. by rewrite Hnone.
Qed.

(** C4. Under a provider whose versioned value holds nothing at schema
    version 1, the hook throws: it returns no value, the default included. *)
Theorem useTechDocsReaderPage_version_mismatch
    (versioned : gmap nat TechDocsReaderPageValue) :
  atVersion versioned 1 = None →
  useTechDocsReaderPage (Some versioned) = Throw "No context found for version 1." ∧
  ∀ v, useTechDocsReaderPage (Some versioned) ≠ Return v.
Proof.
  intros Hnone. unfold useTechDocsReaderPage. rewrite Hnone. by split.
Qed.

(** C8. The three setters of the default value do nothing: whatever they
    are called with, they return, and the page is as it was. *)
Theorem default_setters_are_noops
    (a b : SetStateAction string) (c : SetStateAction (option ShadowRoot)) (w : World) :
  call (setTitle defaultTechDocsReaderPageValue) a w = (tt, w) ∧
  call (setSubtitle defaultTechDocsReaderPageValue) b w = (tt, w) ∧
  call (setShadowRoot defaultTechDocsReaderPageValue) c w = (tt, w).
Proof. by repeat split. Qed.

(** C9. What a mounted provider puts in the context holds a value at
    schema version 1 and at no other version, so the hook called under it
    returns that value and never reaches its throw. *)
Theorem provider_publishes_version_1 (w : World) versioned :
  reachable w → context w = Some versioned →
  (∀ n, is_Some (atVersion versioned n) ↔ n = 1) ∧
  ∃ v, exposed w = Some v ∧ useTechDocsReaderPage (context w) = Return v.
Proof.
  intros Hw%reachable_quiescent Hc.
  destruct (instance w) as [i|] eqn:Hi; [|by unfold context in Hc; rewrite Hi in Hc].
  destruct Hw as [_ Hw]. destruct (Hw i Hi) as (n & t & st & sr & _ & _ & _ & _ & _ & _ & Hr).
  unfold exposed. rewrite Hc. unfold context in Hc. rewrite Hi in Hc. simpl in Hc.
  injection Hc as <-. rewrite Hr. unfold renderedOf, atVersion, useTechDocsReaderPage, atVersion.
  simpl. split.
  - intros k. rewrite lookup_singleton_is_Some. done.
  - eexists. by rewrite lookup_singleton_eq.
Qed.

(** ** The exposed state *)

(** C3, as the code has it.  For the props of the provider's last render and
    the current route: the exposed entity reference is the prop's when the
    props hold the key (the prop's object, or [undefined] when the key holds
    [undefined]) and otherwise a provider-built object holding the route's
    namespace, kind and name; the exposed path is the prop's string when the
    props hold one, the empty string when they hold the key with
    [undefined], and otherwise the route's catch-all capture as it is, or
    the empty string when there is none. *)
Theorem exposed_state_merges_props_over_route (w : World) i :
  reachable w → instance w = Some i →
  ∃ v n, exposed w = Some v ∧
    path v = match props_path (memoizedProps i) with
             | Given p => p
             | Undefined => ""
             | Absent => orDefault "" (splat (content (route w)))
             end ∧
    entityRef v = match props_entityRef (memoizedProps i) with
                  | Given r => Some r
                  | Undefined => None
                  | Absent =>
                      Some (mkObj (ProviderObj n)
                              {| namespace := param_namespace (content (route w));
                                 kind := param_kind (content (route w));
                                 name := param_name (content (route w)) |})
                  end.
Proof.
  intros Hw%reachable_quiescent Hi.
  destruct (quiescent_exposed w i Hw Hi) as (n & t & st & sr & _ & _ & _ & _ & _ & _ & Hv).
  eexists; exists n. split; [exact Hv|].
  unfold valueOf; simpl.
  split; [by destruct (props_path (memoizedProps i))|by destruct (props_entityRef (memoizedProps i))].
Qed.

(** C10. When the props hold no [entityRef] key, the exposed entity
    reference carries the route's namespace, kind and name as they are:
    a parameter the route lacks is [undefined] in it, and the object is then
    not of the declared type. *)
Theorem route_entityRef_is_not_validated (w : World) i :
  reachable w → instance w = Some i → props_entityRef (memoizedProps i) = Absent →
  ∃ v r, exposed w = Some v ∧ entityRef v = Some r ∧
    namespace (content r) = param_namespace (content (route w)) ∧
    kind (content r) = param_kind (content (route w)) ∧
    name (content r) = param_name (content (route w)) ∧
    (param_namespace (content (route w)) = None ∨
     param_kind (content (route w)) = None ∨
     param_name (content (route w)) = None → ¬ wellTyped (content r)).
Proof.
  intros Hw%reachable_quiescent Hi Habsent.
  destruct (quiescent_exposed w i Hw Hi) as (n & t & st & sr & _ & _ & _ & _ & _ & _ & Hv).
  do 2 eexists. split; [exact Hv|]. unfold valueOf; simpl. rewrite Habsent; simpl.
  repeat split.
  intros Hnone (Hk & Hns & Hn); simpl in *.
  destruct Hnone as [E|[E|E]]; rewrite E in *; by eapply is_Some_None.
Qed.

(** C7. A render whose path prop is a string other than the path of the
    last render is not skipped, although the two entity references stringify
    identically: the comparator answers false, the provider renders with the
    new props, and the exposed path is the new string. *)
Theorem path_change_is_rendered (w : World) i nextProps p :
  instance w = Some i →
  areEntityRefsEqual (read (props_entityRef (memoizedProps i)))
    (read (props_entityRef nextProps)) = Return true →
  props_path nextProps = Given p →
  read (props_path (memoizedProps i)) ≠ Some p →
  propsAreEqual (memoizedProps i) nextProps = Return false ∧
  ∃ w', parentRender nextProps w = Return w' ∧
    memoizedProps <$> instance w' = Some nextProps ∧
    path <$> exposed w' = Some p.
Proof.
  intros Hi Hrefs Hp Hne.
  assert (propsAreEqual (memoizedProps i) nextProps = Return false) as Hcmp.
  { unfold propsAreEqual. rewrite Hrefs; simpl. rewrite Hp; simpl.
    unfold arePathsEqual, strictEq. by rewrite bool_decide_eq_false_2. }
  split; [done|]. unfold parentRender. rewrite Hi, Hcmp; simpl.
  eexists. split; [done|]. split; [by rewrite commit_eq|].
  rewrite exposed_commit; simpl. by rewrite Hp.
Qed.

(** C6. For a provider whose props hold the [entityRef] key, as their type
    requires: calling the exposed [setTitle] with a string makes it the
    exposed title, and leaves every other exposed field as it was. *)
Theorem setTitle_changes_only_title (w : World) i v (t : string) :
  reachable w → instance w = Some i → props_entityRef (memoizedProps i) ≠ Absent →
  exposed w = Some v →
  ∃ w' v', step (CallsSetTitle (NewState t)) w = Return w' ∧
    w' = (call (setTitle v) (NewState t) w).2 ∧
    exposed w' = Some v' ∧
    title v' = t ∧
    path v' = path v ∧
    entityRef v' = entityRef v ∧
    metadata v' = metadata v ∧
    entityMetadata v' = entityMetadata v ∧
    subtitle v' = subtitle v ∧
    shadowRoot v' = shadowRoot v ∧
    setTitle v' = setTitle v ∧
    setSubtitle v' = setSubtitle v ∧
    setShadowRoot v' = setShadowRoot v.
Proof.
  intros Hw%reachable_quiescent Hi _ Hv.
  destruct (quiescent_exposed w i Hw Hi)
    as (n & t0 & st & sr & Hmemo & Ht & Hst & Hsr & Hd1 & Hd2 & Hv').
  rewrite Hv in Hv'. injection Hv' as ->.
  do 2 eexists. split; [by simpl; rewrite Hv|]. split; [done|].
  simpl. unfold rerender. rewrite Hi. rewrite exposed_commit; simpl.
  rewrite Hmemo, Hst, Hsr. unfold memoAfter. rewrite Object_is_refl; simpl.
  simpl in Hd1, Hd2.
  destruct (asyncAfter_idle _ _ Hd1) as [-> _].
  destruct (asyncAfter_idle _ _ Hd2) as [-> _].
  split; [done|]. by repeat split.
Qed.

(** ** Load-states and fetches *)

Lemma settle_deps {T} id (outcome : result T) cell cell' dep :
  settle id outcome cell = Some cell' →
  depsUnchanged cell' dep = depsUnchanged cell dep ∧
  lastCallId cell' = lastCallId cell ∧
  state cell' = settledState outcome.
Proof. unfold settle. case_bool_decide; [|done]. by intros [= <-]. Qed.

(** C5, as the code has it.  For a provider whose props hold the
    [entityRef] key, as their type requires: when the promise of the last
    [getTechDocsMetadata] call rejects, the event is handled without an
    exception, the exposed metadata load-state holds the reason as its error
    and is no longer loading, the entity metadata load-state is as it was,
    and no call is placed.  For every provider: when the promise of a
    [getTechDocsMetadata] call that is no longer the last one settles,
    whatever its outcome, the event is handled without an exception and the
    page stays as it was. *)
Theorem metadata_rejection_is_captured (w : World) i v (reason : JsError) :
  reachable w → instance w = Some i → exposed w = Some v →
  (props_entityRef (memoizedProps i) ≠ Absent →
   ∃ w' v',
     step (MetadataSettles (lastCallId (metadataAsync (cells i))) (Throw reason)) w = Return w' ∧
     exposed w' = Some v' ∧
     error (metadata v') = Some reason ∧
     loading (metadata v') = false ∧
     entityMetadata v' = entityMetadata v ∧
     network w' = network w) ∧
  (∀ id outcome,
     id ≠ lastCallId (metadataAsync (cells i)) →
     step (MetadataSettles id outcome) w = Return w).
Proof.
  intros Hw%reachable_quiescent Hi Hv.
  split; [|intros id outcome Hid; simpl; unfold metadataSettled, settle;
           by rewrite Hi, bool_decide_eq_false_2].
  intros _.
  destruct (quiescent_exposed w i Hw Hi)
    as (n & t0 & st & sr & Hmemo & Ht & Hst & Hsr & Hd1 & Hd2 & Hv').
  rewrite Hv in Hv'. injection Hv' as ->.
  do 2 eexists. split; [done|].
  unfold metadataSettled, settle. rewrite Hi, bool_decide_eq_true_2 by done.
  unfold rerender. rewrite Hi, exposed_commit, commit_eq.
  cbn [defaultStateMemo metadataAsync entityMetadataAsync setMetadataAsync network].
  rewrite Hmemo. unfold memoAfter. rewrite Object_is_refl.
  cbn [fst snd]. unfold asyncAfter, asyncCalls.
  replace (depsUnchanged {| deps := deps (metadataAsync (cells i));
                            lastCallId := lastCallId (metadataAsync (cells i));
                            state := settledState (Throw reason) |} _) with true by done.
  rewrite Hd2. by rewrite !app_nil_r.
Qed.

Lemma step_network ev (w w' : World) i v v' :
  quiescent w → instance w = Some i → exposed w = Some v →
  step ev w = Return w' → exposed w' = Some v' →
  network w' =
  network w ++
    if Object_is (entityRef v) (entityRef v') then []
    else [techdocsApi getTechDocsMetadata (entityRef v') (S (lastCallId (metadataAsync (cells i))));
          techdocsApi getEntityMetadata (entityRef v')
            (S (lastCallId (entityMetadataAsync (cells i))))].
Proof.
  intros Hw Hi Hv.
  destruct (quiescent_exposed w i Hw Hi)
    as (n & t0 & st & sr & Hmemo & Ht & Hst & Hsr & Hd1 & Hd2 & Hv0).
  rewrite Hv in Hv0. injection Hv0 as Hv0. intros Hstep Hv'. revert Hstep.
  assert (∀ props h w0,
    w' = commit props h w0 →
    network w0 = network w →
    lastCallId (metadataAsync h) = lastCallId (metadataAsync (cells i)) →
    lastCallId (entityMetadataAsync h) = lastCallId (entityMetadataAsync (cells i)) →
    depsUnchanged (metadataAsync h) (entityRef v) = true →
    depsUnchanged (entityMetadataAsync h) (entityRef v) = true →
    network w' = network w ++
      if Object_is (entityRef v) (entityRef v') then []
      else [techdocsApi getTechDocsMetadata (entityRef v')
              (S (lastCallId (metadataAsync (cells i))));
            techdocsApi getEntityMetadata (entityRef v')
              (S (lastCallId (entityMetadataAsync (cells i))))]) as Hcommit.
  { intros props h w0 Hw' H5 H3 H4 H1 H2. subst w'.
    destruct (commit_network props h w0 _ H1 H2) as (v0 & E & ->).
    rewrite Hv' in E. injection E as <-. by rewrite H3, H4, H5. }
  assert (w' = w →
    network w' = network w ++
      if Object_is (entityRef v) (entityRef v') then []
      else [techdocsApi getTechDocsMetadata (entityRef v')
              (S (lastCallId (metadataAsync (cells i))));
            techdocsApi getEntityMetadata (entityRef v')
              (S (lastCallId (entityMetadataAsync (cells i))))]) as Hsame.
  { intros ->. rewrite Hv in Hv'. injection Hv' as <-.
    by rewrite Object_is_refl, app_nil_r. }
  assert (entityRef v = spread (Some (default_entityRef (routeDefault (route w) n)))
                          (props_entityRef (memoizedProps i))) as He by (by rewrite Hv0).
  rewrite <- He in Hd1, Hd2. clear He.
  destruct ev as [props|params|a|a|a|id outcome|id outcome]; simpl.
  - unfold parentRender. rewrite Hi.
    destruct (propsAreEqual (memoizedProps i) props) as [[]|]; simpl; intros [= Hw'];
      [by apply Hsame|].
    by eapply Hcommit.
  - intros [= Hw'].
    apply (Hcommit (memoizedProps i) (cells i)
             {| route := mkObj (RouterObj (matches w)) params;
                matches := S (matches w);
                heap := heap w;
                network := network w;
                instance := Some i |}); try done.
    rewrite <- Hw'. unfold navigate, rerender. by rewrite Hi.
  - rewrite Hv. intros [= Hw']. revert Hw'.
    replace (setTitle v) with (Bound titleState setTitleState "") by (by rewrite Hv0).
    simpl. unfold rerender. rewrite Hi. intros Hw'. by eapply Hcommit.
  - rewrite Hv. intros [= Hw']. revert Hw'.
    replace (setSubtitle v) with (Bound subtitleState setSubtitleState "") by (by rewrite Hv0).
    simpl. unfold rerender. rewrite Hi. intros Hw'. by eapply Hcommit.
  - rewrite Hv. intros [= Hw']. revert Hw'.
    replace (setShadowRoot v) with (Bound shadowRootState setShadowRootState None)
      by (by rewrite Hv0).
    simpl. unfold rerender. rewrite Hi. intros Hw'. by eapply Hcommit.
  - intros [= Hw']. revert Hw'. unfold metadataSettled. rewrite Hi.
    destruct (settle id outcome _) as [cell|] eqn:Hs; [|by intros; apply Hsame].
    destruct (settle_deps _ _ _ _ (entityRef v) Hs) as (Hdeps & Hid & _).
    unfold rerender. rewrite Hi. intros Hw'.
    eapply Hcommit; [done|done|done|done| |done]. simpl. by rewrite Hdeps.
  - intros [= Hw']. revert Hw'. unfold entityMetadataSettled. rewrite Hi.
    destruct (settle id outcome _) as [cell|] eqn:Hs; [|by intros; apply Hsame].
    destruct (settle_deps _ _ _ _ (entityRef v) Hs) as (Hdeps & Hid & _).
    unfold rerender. rewrite Hi. intros Hw'.
    eapply Hcommit; [done|done|done|done|done|]. simpl. by rewrite Hdeps.
Qed.

(** ** What one event does to a mounted provider *)

Lemma depsUnchanged_deps {T} (c c' : AsyncCell T) dep :
  deps c' = deps c → depsUnchanged c' dep = depsUnchanged c dep.
Proof. unfold depsUnchanged. by intros ->. Qed.

(** A render React schedules in a quiescent world, on cells that differ
    from the instance's in load-states and view state only: it calls
    nothing, allocates nothing and exposes the cells' states around the
    same path and entity reference. *)
Lemma rerender_quiescent_eq (w : World) i v h :
  quiescent w → instance w = Some i → exposed w = Some v →
  defaultStateMemo h = defaultStateMemo (cells i) →
  deps (metadataAsync h) = deps (metadataAsync (cells i)) →
  deps (entityMetadataAsync h) = deps (entityMetadataAsync (cells i)) →
  rerender h w =
  {| route := route w;
     matches := matches w;
     heap := heap w;
     network := network w;
     instance :=
       Some {| memoizedProps := memoizedProps i;
               cells := {| defaultStateMemo := defaultStateMemo (cells i);
                           metadataAsync := metadataAsync h;
                           entityMetadataAsync := entityMetadataAsync h;
                           titleState := Some (orDefault "" (titleState h));
                           subtitleState := Some (orDefault "" (subtitleState h));
                           shadowRootState := Some (orDefault None (shadowRootState h)) |};
               rendered :=
                 renderedOf (memoizedProps i)
                   {| metadata := state (metadataAsync h);
                      path := path v;
                      entityRef := entityRef v;
                      entityMetadata := state (entityMetadataAsync h);
                      shadowRoot := orDefault None (shadowRootState h);
                      setShadowRoot := setShadowRoot v;
                      title := orDefault "" (titleState h);
                      setTitle := setTitle v;
                      subtitle := orDefault "" (subtitleState h);
                      setSubtitle := setSubtitle v |} |} |}.
Proof.
  intros Hw Hi Hv Hmemo Hdm Hde.
  destruct (quiescent_exposed w i Hw Hi)
    as (n & t0 & st & sr & Hm & Ht & Hst & Hsr & Hd1 & Hd2 & Hv').
  rewrite Hv in Hv'. injection Hv' as ->.
  rewrite <- (depsUnchanged_deps _ _ _ Hdm) in Hd1.
  rewrite <- (depsUnchanged_deps _ _ _ Hde) in Hd2.
  unfold rerender. rewrite Hi, commit_eq, Hmemo, Hm.
  unfold memoAfter, heapAfter, memoHit. rewrite Object_is_refl. cbn [fst snd].
  destruct (asyncAfter_idle _ _ Hd1) as [-> ->].
  destruct (asyncAfter_idle _ _ Hd2) as [-> ->].
  by rewrite !app_nil_r.
Qed.

Lemma commit_ext props h (w1 w2 : World) :
  route w1 = route w2 → matches w1 = matches w2 → heap w1 = heap w2 →
  network w1 = network w2 → commit props h w1 = commit props h w2.
Proof. intros Hr Hm Hh Hn. rewrite !commit_eq. by rewrite Hr, Hm, Hh, Hn. Qed.

(** Whatever happens to a mounted provider leaves it as it is or renders
    it, under the same or a newly matched route, on cells with the memo
    cell, the dependencies and the call numbers it had. *)
Lemma step_mounted_inv ev (w w' : World) i :
  quiescent w → instance w = Some i → step ev w = Return w' →
  w' = w ∨
  ∃ props h w0,
    w' = commit props h w0 ∧
    heap w0 = heap w ∧ network w0 = network w ∧
    (route w0 = route w ∧ matches w0 = matches w ∨
     ∃ params, route w0 = mkObj (RouterObj (matches w)) params ∧ matches w0 = S (matches w)) ∧
    defaultStateMemo h = defaultStateMemo (cells i) ∧
    deps (metadataAsync h) = deps (metadataAsync (cells i)) ∧
    deps (entityMetadataAsync h) = deps (entityMetadataAsync (cells i)) ∧
    lastCallId (metadataAsync h) = lastCallId (metadataAsync (cells i)) ∧
    lastCallId (entityMetadataAsync h) = lastCallId (entityMetadataAsync (cells i)).
Proof.
  intros Hw Hi.
  destruct (quiescent_exposed w i Hw Hi)
    as (n & t0 & st & sr & _ & _ & _ & _ & _ & _ & Hv).
  destruct ev as [props|params|a|a|a|id outcome|id outcome]; simpl.
  - unfold parentRender. rewrite Hi.
    destruct (propsAreEqual (memoizedProps i) props) as [[]|]; simpl; intros [= <-];
      [by left|].
    right. exists props, (cells i), w. by repeat split; try left.
  - intros [= <-]. right. unfold navigate, rerender. rewrite Hi.
    eexists _, _, _. split; [reflexivity|]. simpl. repeat split; try done.
    right. by eexists.
  - rewrite Hv. intros [= <-]. simpl. unfold rerender. rewrite Hi. right.
    eexists _, _, w. split; [reflexivity|]. by repeat split; try left.
  - rewrite Hv. intros [= <-]. simpl. unfold rerender. rewrite Hi. right.
    eexists _, _, w. split; [reflexivity|]. by repeat split; try left.
  - rewrite Hv. intros [= <-]. simpl. unfold rerender. rewrite Hi. right.
    eexists _, _, w. split; [reflexivity|]. by repeat split; try left.
  - intros [= <-]. unfold metadataSettled. rewrite Hi. unfold settle.
    case_bool_decide; [|by left]. unfold rerender. rewrite Hi. right.
    eexists _, _, w. split; [reflexivity|]. by repeat split; try left.
  - intros [= <-]. unfold entityMetadataSettled. rewrite Hi. unfold settle.
    case_bool_decide; [|by left]. unfold rerender. rewrite Hi. right.
    eexists _, _, w. split; [reflexivity|]. by repeat split; try left.
Qed.

(** Before the mount an event mounts the provider or places no call. *)
Lemma step_unmounted_inv ev (w w' : World) :
  instance w = None → step ev w = Return w' →
  (∃ props, w' = commit props initialHooks w) ∨
  (instance w' = None ∧ network w' = network w).
Proof.
  intros Hi. assert (exposed w = None) as Hv by (by unfold exposed, context; rewrite Hi).
  destruct ev as [props|params|a|a|a|id outcome|id outcome]; simpl.
  - unfold parentRender. rewrite Hi. intros [= <-]. left. by exists props.
  - unfold navigate. rewrite Hi. intros [= <-]. by right.
  - rewrite Hv. intros [= <-]. by right.
  - rewrite Hv. intros [= <-]. by right.
  - rewrite Hv. intros [= <-]. by right.
  - unfold metadataSettled. rewrite Hi. intros [= <-]. by right.
  - unfold entityMetadataSettled. rewrite Hi. intros [= <-]. by right.
Qed.

(** C1, as the code has it.  Mounting the provider renders it and places
    the two calls.  A parent render whose entity reference stringifies like
    that of the last render and whose path is the same is skipped, and places
    none.  A parent render whose entity reference stringifies otherwise,
    whatever the paths, or whose path is another, whatever the references
    stringify to, is never skipped: the provider is rendered with the next
    props and exposes their entity reference, and when that is another object
    than the one exposed before, both calls are placed for it, with the next
    call numbers.  Whatever happens to a mounted provider, it exposes a value
    afterwards, and the two calls are placed again exactly when the entity
    reference it exposes is another object under [Object.is] than before,
    whatever the two stringify to. *)
Theorem fetches_follow_object_identity (w : World) :
  reachable w →
  (∀ props,
     instance w = None →
     ∃ w' v', parentRender props w = Return w' ∧
       memoizedProps <$> instance w' = Some props ∧
       exposed w' = Some v' ∧
       network w' = network w ++ [techdocsApi getTechDocsMetadata (entityRef v') 1;
                                  techdocsApi getEntityMetadata (entityRef v') 1]) ∧
  (∀ i nextProps,
     instance w = Some i →
     areEntityRefsEqual (read (props_entityRef (memoizedProps i)))
       (read (props_entityRef nextProps)) = Return true →
     arePathsEqual (read (props_path (memoizedProps i))) (read (props_path nextProps)) = true →
     parentRender nextProps w = Return w) ∧
  (∀ i v nextProps sameRef,
     instance w = Some i → exposed w = Some v →
     areEntityRefsEqual (read (props_entityRef (memoizedProps i)))
       (read (props_entityRef nextProps)) = Return sameRef →
     sameRef && arePathsEqual (read (props_path (memoizedProps i)))
                  (read (props_path nextProps)) = false →
     ∃ w' v', parentRender nextProps w = Return w' ∧
       memoizedProps <$> instance w' = Some nextProps ∧
       exposed w' = Some v' ∧
       ∀ r', props_entityRef nextProps = Given r' →
         entityRef v' = Some r' ∧
         (Object_is (entityRef v) (Some r') = false →
          network w' =
          network w ++
            [techdocsApi getTechDocsMetadata (Some r')
               (S (lastCallId (metadataAsync (cells i))));
             techdocsApi getEntityMetadata (Some r')
               (S (lastCallId (entityMetadataAsync (cells i))))])) ∧
  (∀ ev i v w',
     instance w = Some i → exposed w = Some v →
     step ev w = Return w' →
     ∃ v', exposed w' = Some v' ∧
       network w' =
       network w ++
         if Object_is (entityRef v) (entityRef v') then []
         else [techdocsApi getTechDocsMetadata (entityRef v')
                 (S (lastCallId (metadataAsync (cells i))));
               techdocsApi getEntityMetadata (entityRef v')
                 (S (lastCallId (entityMetadataAsync (cells i))))]).
Proof.
  intros Hw%reachable_quiescent. repeat split.
  - intros props Hi. unfold parentRender. rewrite Hi.
    eexists _, _. split; [done|]. split; [by rewrite commit_eq|].
    rewrite exposed_commit. split; [done|]. rewrite commit_eq. simpl.
    by rewrite <- app_assoc.
  - intros i nextProps Hi Hrefs Hpaths. unfold parentRender, propsAreEqual.
    rewrite Hi, Hrefs; simpl. by rewrite Hpaths.
  - intros i v nextProps sameRef Hi Hv Hrefs Hcmp.
    assert (step (ParentRenders nextProps) w = Return (commit nextProps (cells i) w)) as Hstep.
    { simpl. unfold parentRender, propsAreEqual. rewrite Hi, Hrefs. simpl.
      destruct sameRef; [|done]. simpl in Hcmp. by rewrite Hcmp. }
    destruct (exposed (commit nextProps (cells i) w)) as [v'|] eqn:Hv';
      [|by rewrite exposed_commit in Hv'].
    exists (commit nextProps (cells i) w), v'. split; [exact Hstep|].
    split; [by rewrite commit_eq|]. split; [done|].
    intros r' Hr'.
    assert (entityRef v' = Some r') as He.
    { rewrite exposed_commit in Hv'. injection Hv' as <-. simpl. by rewrite Hr'. }
    split; [exact He|].
    intros Hobj. rewrite (step_network _ _ _ _ _ _ Hw Hi Hv Hstep Hv').
    by rewrite He, Hobj.
  - intros ev i v w' Hi Hv Hstep.
    pose proof (step_quiescent ev w w' Hw Hstep) as Hw'.
    assert (∃ i', instance w' = Some i') as [i' Hi'].
    { destruct (step_mounted_inv ev w w' i Hw Hi Hstep) as [->|(props & h & w0 & -> & _)];
        [by exists i|]. rewrite commit_eq. by eexists. }
    destruct (quiescent_exposed w' i' Hw' Hi') as (n & t0 & st & sr & _ & _ & _ & _ & _ & _ & Hv').
    eexists. split; [exact Hv'|]. by apply (step_network ev w w' i v).
Qed.

Lemma fetchLog_snoc args e :
  fetchLog (args ++ [e]) = fetchLog args ++ fetchPair (length args) e.
Proof.
  unfold fetchLog. rewrite imap_app, join_app. simpl.
  by rewrite Nat.add_0_r.
Qed.

Lemma commit_paired props h (w : World) args d :
  network w = fetchLog (args ++ [d]) →
  deps (metadataAsync h) = Some d → deps (entityMetadataAsync h) = Some d →
  lastCallId (metadataAsync h) = S (length args) →
  lastCallId (entityMetadataAsync h) = S (length args) →
  paired (commit props h w).
Proof.
  intros Hn Hdm Hde Hlm Hle. rewrite commit_eq. unfold paired. cbn [instance cells network].
  cbv zeta. set (e := spread _ _). unfold asyncAfter, asyncCalls, depsUnchanged.
  rewrite Hdm, Hde. destruct (Object_is d e).
  - exists args, d. by rewrite !app_nil_r.
  - exists (args ++ [d]), e. cbn [deps lastCallId]. rewrite Hlm, Hle, Hn.
    rewrite (fetchLog_snoc (args ++ [d])), length_app. simpl.
    rewrite Nat.add_1_r, <- app_assoc. by repeat split.
Qed.

Lemma reachable_paired (w : World) : reachable w → paired w.
Proof.
  induction 1 as [params|ev w w' Hreach IH Hstep]; [done|].
  pose proof (reachable_quiescent w Hreach) as Hw.
  unfold paired in IH. destruct (instance w) as [i|] eqn:Hi.
  - destruct IH as (args & d & Hn & Hdm & Hde & Hlm & Hle).
    destruct (step_mounted_inv ev w w' i Hw Hi Hstep)
      as [->|(props & h & w0 & -> & _ & Hn0 & _ & _ & Edm & Ede & Elm & Ele)].
    + unfold paired. rewrite Hi. by exists args, d.
    + apply commit_paired with args d; congruence.
  - destruct (step_unmounted_inv ev w w' Hi Hstep) as [[props ->]|[Hi' Hn']].
    + rewrite commit_eq. unfold paired. cbn [instance cells network]. cbv zeta.
      set (e := spread _ _). exists [], e. rewrite IH. by repeat split.
    + unfold paired. rewrite Hi'. congruence.
Qed.

Lemma commit_allocated props h (w : World) :
  (∀ d ds, defaultStateMemo h = Some (d, ds) →
     ∃ n, oid (default_entityRef ds) = ProviderObj n ∧ n < heap w) →
  allocated (commit props h w).
Proof.
  intros Hh. rewrite commit_eq. intros i d ds [= <-]. cbn [cells defaultStateMemo].
  unfold memoAfter, heapAfter, memoHit.
  destruct (defaultStateMemo h) as [[d0 ds0]|] eqn:Hmemo.
  - destruct (Object_is (Some d0) (Some (route w))).
    + intros [= <- <-]. by apply (Hh d0).
    + intros [= <- <-]. exists (heap w). simpl. split; [done|lia].
  - intros [= <- <-]. exists (heap w). simpl. split; [done|lia].
Qed.

Lemma reachable_allocated (w : World) : reachable w → allocated w.
Proof.
  induction 1 as [params|ev w w' Hreach IH Hstep]; [by intros i|].
  pose proof (reachable_quiescent w Hreach) as Hw.
  destruct (instance w) as [i|] eqn:Hi.
  - destruct (step_mounted_inv ev w w' i Hw Hi Hstep)
      as [->|(props & h & w0 & -> & Hh0 & _ & _ & Emem & _)]; [done|].
    apply commit_allocated. rewrite Emem, Hh0. intros d ds. by apply IH.
  - destruct (step_unmounted_inv ev w w' Hi Hstep) as [[props ->]|[Hi' _]].
    + by apply commit_allocated.
    + intros i. by rewrite Hi'.
Qed.

(** ** View state *)

Lemma exposed_rendered r m hp nw props c (v : TechDocsReaderPageValue) :
  exposed {| route := r;
             matches := m;
             heap := hp;
             network := nw;
             instance := Some {| memoizedProps := props;
                                 cells := c;
                                 rendered := renderedOf props v |} |} = Some v.
Proof. unfold exposed, context, atVersion. simpl. apply lookup_singleton_eq. Qed.

Lemma title_step (w : World) v (a : SetStateAction string) :
  quiescent w → exposed w = Some v →
  ∃ w', step (CallsSetTitle a) w = Return w' ∧ quiescent w' ∧ network w' = network w ∧
    exposed w' =
      Some {| metadata := metadata v;
              path := path v;
              entityRef := entityRef v;
              entityMetadata := entityMetadata v;
              shadowRoot := shadowRoot v;
              setShadowRoot := setShadowRoot v;
              title := applyAction a (title v);
              setTitle := setTitle v;
              subtitle := subtitle v;
              setSubtitle := setSubtitle v |}.
Proof.
  intros Hw Hv. destruct (exposed_instance w v Hv) as [i Hi].
  destruct (quiescent_exposed w i Hw Hi)
    as (n & t0 & st & sr & Hm & Ht & Hst & Hsr & _ & _ & Hv').
  rewrite Hv in Hv'. injection Hv' as Ev.
  eexists. split; [by simpl; rewrite Hv|].
  split; [by apply (step_quiescent (CallsSetTitle a) w); [|simpl; rewrite Hv]|].
  replace (setTitle v) with (Bound titleState setTitleState "") by (by rewrite Ev).
  cbn [call snd]. rewrite Hi, (rerender_quiescent_eq w i v) by done.
  split; [done|].
  rewrite exposed_rendered. simpl. rewrite Ht, Hst, Hsr, Ev. done.
Qed.

Lemma subtitle_step (w : World) v (a : SetStateAction string) :
  quiescent w → exposed w = Some v →
  ∃ w', step (CallsSetSubtitle a) w = Return w' ∧ quiescent w' ∧ network w' = network w ∧
    exposed w' =
      Some {| metadata := metadata v;
              path := path v;
              entityRef := entityRef v;
              entityMetadata := entityMetadata v;
              shadowRoot := shadowRoot v;
              setShadowRoot := setShadowRoot v;
              title := title v;
              setTitle := setTitle v;
              subtitle := applyAction a (subtitle v);
              setSubtitle := setSubtitle v |}.
Proof.
  intros Hw Hv. destruct (exposed_instance w v Hv) as [i Hi].
  destruct (quiescent_exposed w i Hw Hi)
    as (n & t0 & st & sr & Hm & Ht & Hst & Hsr & _ & _ & Hv').
  rewrite Hv in Hv'. injection Hv' as Ev.
  eexists. split; [by simpl; rewrite Hv|].
  split; [by apply (step_quiescent (CallsSetSubtitle a) w); [|simpl; rewrite Hv]|].
  replace (setSubtitle v) with (Bound subtitleState setSubtitleState "") by (by rewrite Ev).
  cbn [call snd]. rewrite Hi, (rerender_quiescent_eq w i v) by done.
  split; [done|].
  rewrite exposed_rendered. simpl. rewrite Ht, Hst, Hsr, Ev. done.
Qed.

Lemma shadowRoot_step (w : World) v (a : SetStateAction (option ShadowRoot)) :
  quiescent w → exposed w = Some v →
  ∃ w', step (CallsSetShadowRoot a) w = Return w' ∧ quiescent w' ∧ network w' = network w ∧
    exposed w' =
      Some {| metadata := metadata v;
              path := path v;
              entityRef := entityRef v;
              entityMetadata := entityMetadata v;
              shadowRoot := applyAction a (shadowRoot v);
              setShadowRoot := setShadowRoot v;
              title := title v;
              setTitle := setTitle v;
              subtitle := subtitle v;
              setSubtitle := setSubtitle v |}.
Proof.
  intros Hw Hv. destruct (exposed_instance w v Hv) as [i Hi].
  destruct (quiescent_exposed w i Hw Hi)
    as (n & t0 & st & sr & Hm & Ht & Hst & Hsr & _ & _ & Hv').
  rewrite Hv in Hv'. injection Hv' as Ev.
  eexists. split; [by simpl; rewrite Hv|].
  split; [by apply (step_quiescent (CallsSetShadowRoot a) w); [|simpl; rewrite Hv]|].
  replace (setShadowRoot v) with (Bound shadowRootState setShadowRootState None) by (by rewrite Ev).
  cbn [call snd]. rewrite Hi, (rerender_quiescent_eq w i v) by done.
  split; [done|].
  rewrite exposed_rendered. simpl. rewrite Ht, Hst, Hsr, Ev. done.
Qed.

(** X1. For a provider whose props hold the [entityRef] key: calling the
    exposed [setTitle] with a new title or with a function of the previous
    one makes the exposed title what the action gives on the title exposed
    before; every other exposed field is as it was, and no API call is
    placed. *)
Theorem setTitle_applies_action (w : World) i v (a : SetStateAction string) :
  reachable w → instance w = Some i → props_entityRef (memoizedProps i) ≠ Absent →
  exposed w = Some v →
  ∃ w' v', step (CallsSetTitle a) w = Return w' ∧ exposed w' = Some v' ∧
    title v' = applyAction a (title v) ∧
    subtitle v' = subtitle v ∧
    shadowRoot v' = shadowRoot v ∧
    path v' = path v ∧
    entityRef v' = entityRef v ∧
    metadata v' = metadata v ∧
    entityMetadata v' = entityMetadata v ∧
    setTitle v' = setTitle v ∧
    setSubtitle v' = setSubtitle v ∧
    setShadowRoot v' = setShadowRoot v ∧
    network w' = network w.
Proof.
  intros Hw%reachable_quiescent _ _ Hv.
  destruct (title_step w v a Hw Hv) as (w' & Hstep & _ & Hnet & Hv').
  eexists w', _. split; [done|]. split; [exact Hv'|]. by repeat split.
Qed.

(** X2. For a provider whose props hold the [entityRef] key: calling the
    exposed [setSubtitle] changes the exposed subtitle as the action says and
    nothing else, and places no API call. *)
Theorem setSubtitle_applies_action (w : World) i v (a : SetStateAction string) :
  reachable w → instance w = Some i → props_entityRef (memoizedProps i) ≠ Absent →
  exposed w = Some v →
  ∃ w' v', step (CallsSetSubtitle a) w = Return w' ∧ exposed w' = Some v' ∧
    subtitle v' = applyAction a (subtitle v) ∧
    title v' = title v ∧
    shadowRoot v' = shadowRoot v ∧
    path v' = path v ∧
    entityRef v' = entityRef v ∧
    metadata v' = metadata v ∧
    entityMetadata v' = entityMetadata v ∧
    setTitle v' = setTitle v ∧
    setSubtitle v' = setSubtitle v ∧
    setShadowRoot v' = setShadowRoot v ∧
    network w' = network w.
Proof.
  intros Hw%reachable_quiescent _ _ Hv.
  destruct (subtitle_step w v a Hw Hv) as (w' & Hstep & _ & Hnet & Hv').
  eexists w', _. split; [done|]. split; [exact Hv'|]. by repeat split.
Qed.

(** X3. For a provider whose props hold the [entityRef] key: calling the
    exposed [setShadowRoot] changes the exposed shadow root as the action
    says, to [undefined] too, and nothing else, and places no API call. *)
Theorem setShadowRoot_applies_action (w : World) i v (a : SetStateAction (option ShadowRoot)) :
  reachable w → instance w = Some i → props_entityRef (memoizedProps i) ≠ Absent →
  exposed w = Some v →
  ∃ w' v', step (CallsSetShadowRoot a) w = Return w' ∧ exposed w' = Some v' ∧
    shadowRoot v' = applyAction a (shadowRoot v) ∧
    title v' = title v ∧
    subtitle v' = subtitle v ∧
    path v' = path v ∧
    entityRef v' = entityRef v ∧
    metadata v' = metadata v ∧
    entityMetadata v' = entityMetadata v ∧
    setTitle v' = setTitle v ∧
    setSubtitle v' = setSubtitle v ∧
    setShadowRoot v' = setShadowRoot v ∧
    network w' = network w.
Proof.
  intros Hw%reachable_quiescent _ _ Hv.
  destruct (shadowRoot_step w v a Hw Hv) as (w' & Hstep & _ & Hnet & Hv').
  eexists w', _. split; [done|]. split; [exact Hv'|]. by repeat split.
Qed.

(** X4. Setting the title and setting the subtitle commute: in either
    order the provider exposes the same value and has placed the same calls.
    Two calls of [setTitle] compose: the second action is applied to what the
    first one left. *)
Theorem setters_compose (w : World) v (a a' b : SetStateAction string) :
  reachable w → exposed w = Some v →
  ∃ w1 w12 w2 w21 w11,
    step (CallsSetTitle a) w = Return w1 ∧
    step (CallsSetSubtitle b) w1 = Return w12 ∧
    step (CallsSetSubtitle b) w = Return w2 ∧
    step (CallsSetTitle a) w2 = Return w21 ∧
    step (CallsSetTitle a') w1 = Return w11 ∧
    exposed w12 = exposed w21 ∧
    network w12 = network w21 ∧
    title <$> exposed w11 = Some (applyAction a' (applyAction a (title v))).
Proof.
  intros Hw%reachable_quiescent Hv.
  destruct (title_step w v a Hw Hv) as (w1 & Hs1 & Hw1 & Hn1 & Hv1).
  destruct (subtitle_step w1 _ b Hw1 Hv1) as (w12 & Hs12 & _ & Hn12 & Hv12).
  destruct (subtitle_step w v b Hw Hv) as (w2 & Hs2 & Hw2 & Hn2 & Hv2).
  destruct (title_step w2 _ a Hw2 Hv2) as (w21 & Hs21 & _ & Hn21 & Hv21).
  destruct (title_step w1 _ a' Hw1 Hv1) as (w11 & Hs11 & _ & _ & Hv11).
  exists w1, w12, w2, w21, w11. repeat split; try done.
  - by rewrite Hv12, Hv21.
  - congruence.
  - by rewrite Hv11.
Qed.

Lemma rerender_same (w : World) i :
  quiescent w → instance w = Some i → rerender (cells i) w = w.
Proof.
  intros Hw Hi.
  destruct (quiescent_exposed w i Hw Hi)
    as (n & t0 & st & sr & Hm & Ht & Hst & Hsr & _ & _ & Hv).
  destruct (proj2 Hw i Hi) as (n' & t' & st' & sr' & Hm' & Ht' & Hst' & Hsr' & _ & _ & Hr).
  assert (n' = n) as -> by (rewrite Hm in Hm'; by injection Hm').
  assert (t' = t0) as -> by congruence.
  assert (st' = st) as -> by congruence.
  assert (sr' = sr) as -> by congruence.
  rewrite (rerender_quiescent_eq w i _ (cells i) Hw Hi Hv) by done.
  clear Hw Hv Hm Hm' Ht' Hst' Hsr'. revert Hr Hi Ht Hst Hsr.
  destruct w as [r m hp nw inst], i as [props [memo mc ec ti su sh] rd]. simpl.
  intros -> -> -> -> ->. done.
Qed.

(** X5. Nothing is left pending in a page that can be reached.  For a
    provider whose props hold the [entityRef] key: after a render React
    schedules with no cell changed, and after a setter is called with the
    very state it would replace, the provider exposes the value it exposed,
    has rendered the children it had rendered, and no API call was placed. *)
Theorem unchanged_state_renders_nothing (w : World) i v :
  reachable w → instance w = Some i → props_entityRef (memoizedProps i) ≠ Absent →
  exposed w = Some v →
  (exposed (rerender (cells i) w) = Some v ∧
   subtree ∘ rendered <$> instance (rerender (cells i) w) = Some (subtree (rendered i)) ∧
   network (rerender (cells i) w) = network w) ∧
  ∀ ev,
    ev = CallsSetTitle (NewState (title v)) ∨
    ev = CallsSetSubtitle (NewState (subtitle v)) ∨
    ev = CallsSetShadowRoot (NewState (shadowRoot v)) →
    ∃ w', step ev w = Return w' ∧
      exposed w' = Some v ∧
      subtree ∘ rendered <$> instance w' = Some (subtree (rendered i)) ∧
      network w' = network w.
Proof.
  intros Hw%reachable_quiescent Hi _ Hv.
  pose proof (rerender_same w i Hw Hi) as Hsame.
  destruct (quiescent_exposed w i Hw Hi)
    as (n & t0 & st & sr & _ & Ht & Hst & Hsr & _ & _ & Hv').
  rewrite Hv in Hv'. injection Hv' as Ev.
  split; [by rewrite Hsame, Hi|].
  intros ev Hev. exists w.
  split; [|by rewrite Hi].
  destruct Hev as [->|[->| ->]]; simpl; rewrite Hv, Ev; simpl; rewrite Hi.
  - replace (setTitleState (Some t0) (cells i)) with (cells i)
      by (revert Ht; destruct (cells i); simpl; by intros ->).
    by rewrite Hsame.
  - replace (setSubtitleState (Some st) (cells i)) with (cells i)
      by (revert Hst; destruct (cells i); simpl; by intros ->).
    by rewrite Hsame.
  - replace (setShadowRootState (Some sr) (cells i)) with (cells i)
      by (revert Hsr; destruct (cells i); simpl; by intros ->).
    by rewrite Hsame.
Qed.

(** ** The calls placed *)

(** X6. The two API methods are always called together: the log of calls
    is empty until the provider mounts, and afterwards it is a sequence of
    pairs, [getTechDocsMetadata] then [getEntityMetadata], each pair with one
    argument and one call number, numbered from 1 without a gap; the last
    pair was placed for the object the provider exposes as entity reference,
    and carries the call number both load-states wait for. *)
Theorem fetches_come_in_pairs (w : World) :
  reachable w →
  (instance w = None → network w = []) ∧
  (∀ i v, instance w = Some i → exposed w = Some v →
     ∃ args d,
       network w = fetchLog (args ++ [d]) ∧
       Object_is d (entityRef v) = true ∧
       lastCallId (metadataAsync (cells i)) = S (length args) ∧
       lastCallId (entityMetadataAsync (cells i)) = S (length args)).
Proof.
  intros Hr. pose proof (reachable_paired w Hr) as Hp.
  pose proof (reachable_quiescent w Hr) as Hw. unfold paired in Hp. split.
  - intros Hi. by rewrite Hi in Hp.
  - intros i v Hi Hv. rewrite Hi in Hp.
    destruct Hp as (args & d & Hn & Hdm & _ & Hlm & Hle).
    destruct (quiescent_exposed w i Hw Hi)
      as (n & t0 & st & sr & _ & _ & _ & _ & Hd1 & _ & Hv').
    rewrite Hv in Hv'. injection Hv' as Ev.
    exists args, d. repeat split; try done.
    unfold depsUnchanged in Hd1. rewrite Hdm in Hd1. by rewrite Ev.
Qed.

(** ** Children *)

(** X7. Children given as a function are called with the very value the
    provider puts in the context at version 1, so a render prop and a
    consumer hook below the provider see the same value; children given as
    nodes are rendered as they are. *)
Theorem render_prop_receives_exposed_value (w : World) i :
  reachable w → instance w = Some i →
  ∃ v, exposed w = Some v ∧
    useTechDocsReaderPage (context w) = Return v ∧
    subtree (rendered i) = match children (memoizedProps i) with
                           | RenderFunction f => f v
                           | Node n => n
                           end.
Proof.
  intros Hw%reachable_quiescent Hi.
  destruct (proj2 Hw i Hi) as (n & t & st & sr & _ & _ & _ & _ & _ & _ & Hr).
  eexists. unfold exposed, context, useTechDocsReaderPage, atVersion.
  rewrite Hi. simpl. rewrite Hr. simpl. rewrite lookup_singleton_eq. done.
Qed.

(** X8. The comparator does not look at the children: a parent render that
    brings other children with the props of the last render is skipped
    whenever the entity reference stringifies at all, and the page, its
    rendered children included, stays as it was. *)
Theorem new_children_alone_are_not_rendered (w : World) i c s :
  instance w = Some i →
  stringifyEntityRef (content <$> read (props_entityRef (memoizedProps i))) = Return s →
  parentRender {| props_path := props_path (memoizedProps i);
                  props_entityRef := props_entityRef (memoizedProps i);
                  children := c |} w = Return w.
Proof.
  intros Hi Hs. unfold parentRender, propsAreEqual, areEntityRefsEqual. rewrite Hi. simpl.
  rewrite Hs. simpl. rewrite bool_decide_eq_true_2 by done.
  unfold arePathsEqual, strictEq. by rewrite bool_decide_eq_true_2.
Qed.

(** ** The comparator *)

(** X9. An exception of [stringifyEntityRef] on the entity reference of the
    last render, or else on the one of the next props, leaves the comparator
    and the parent render with it, whatever the paths are: the provider is
    not rendered. *)
Theorem comparator_exception_leaves_render (w : World) i nextProps e :
  instance w = Some i →
  stringifyEntityRef (content <$> read (props_entityRef (memoizedProps i))) = Throw e ∨
  (∃ s, stringifyEntityRef (content <$> read (props_entityRef (memoizedProps i))) = Return s) ∧
  stringifyEntityRef (content <$> read (props_entityRef nextProps)) = Throw e →
  propsAreEqual (memoizedProps i) nextProps = Throw e ∧
  step (ParentRenders nextProps) w = Throw e.
Proof.
  intros Hi Hthrow.
  assert (propsAreEqual (memoizedProps i) nextProps = Throw e) as Hcmp.
  { unfold propsAreEqual, areEntityRefsEqual.
    destruct Hthrow as [->|[[s ->] ->]]; done. }
  split; [done|]. simpl. unfold parentRender. by rewrite Hi, Hcmp.
Qed.

(** X10. Where the comparator answers, it answers as an equivalence would:
    it is symmetric, and if it skips from one prop set to a second and from
    the second to a third, it skips from the first to the third. *)
Theorem comparator_is_symmetric_and_transitive
    (p q r : TechDocsReaderPageProviderProps) (b : bool) :
  propsAreEqual p q = Return b → propsAreEqual q r = Return true →
  propsAreEqual q p = Return b ∧ propsAreEqual p r = Return b.
Proof.
  unfold propsAreEqual, areEntityRefsEqual, arePathsEqual, strictEq.
  destruct (stringifyEntityRef (content <$> read (props_entityRef p))) as [sp|]; [|done].
  destruct (stringifyEntityRef (content <$> read (props_entityRef q))) as [sq|]; [|done].
  destruct (stringifyEntityRef (content <$> read (props_entityRef r))) as [sr|]; [|done].
  simpl. intros H1 H2.
  destruct (decide (sq = sr)) as [<-|Hqr]; [|by rewrite bool_decide_eq_false_2 in H2].
  rewrite bool_decide_eq_true_2 in H2 by done. injection H2 as H2.
  apply bool_decide_eq_true in H2. rewrite <- H2. split; [|done].
  destruct (decide (sp = sq)) as [<-|Hpq].
  - rewrite bool_decide_eq_true_2 in H1 |- * by done. rewrite <- H1.
    f_equal. by apply bool_decide_ext.
  - rewrite bool_decide_eq_false_2 in H1 by done.
    by rewrite bool_decide_eq_false_2 by (by intros ->).
Qed.

(** ** Route changes *)

Lemma navigate_eq (w : World) i params :
  quiescent w → instance w = Some i →
  navigate params w =
  let r := mkObj (RouterObj (matches w)) params in
  let e := spread (Some (default_entityRef (routeDefault r (heap w))))
             (props_entityRef (memoizedProps i)) in
  let mc := asyncAfter (metadataAsync (cells i)) e in
  let ec := asyncAfter (entityMetadataAsync (cells i)) e in
  let t := orDefault "" (titleState (cells i)) in
  let st := orDefault "" (subtitleState (cells i)) in
  let sr := orDefault None (shadowRootState (cells i)) in
  {| route := r;
     matches := S (matches w);
     heap := S (heap w);
     network :=
       (network w ++ asyncCalls (metadataAsync (cells i)) (techdocsApi getTechDocsMetadata e) e)
       ++ asyncCalls (entityMetadataAsync (cells i)) (techdocsApi getEntityMetadata e) e;
     instance :=
       Some {| memoizedProps := memoizedProps i;
               cells := {| defaultStateMemo := Some (r, routeDefault r (heap w));
                           metadataAsync := mc;
                           entityMetadataAsync := ec;
                           titleState := Some t;
                           subtitleState := Some st;
                           shadowRootState := Some sr |};
               rendered :=
                 renderedOf (memoizedProps i)
                   (valueOf (memoizedProps i) (routeDefault r (heap w))
                      (state mc) (state ec) t st sr) |} |}.
Proof.
  intros Hw Hi. destruct (proj2 Hw i Hi) as (n & _ & _ & _ & Hm & _).
  destruct (proj1 Hw) as (k & Hk & Hlt).
  unfold navigate, rerender. rewrite Hi. cbn [instance]. rewrite commit_eq.
  cbn [route matches heap network]. rewrite Hm.
  unfold memoAfter, heapAfter, memoHit, Object_is. cbn [oid]. rewrite Hk.
  rewrite bool_decide_eq_false_2 by (intros [= ->]; lia). done.
Qed.

(** X11. With an entity reference given in the props, a route change
    places no API call and leaves the exposed entity reference, load-states
    and view state as they were; the exposed path is still the prop's when
    the props hold one (the empty string when they hold [undefined]), and
    otherwise becomes the catch-all capture of the new route, or the empty
    string when it has none. *)
Theorem route_change_with_given_entityRef (w : World) i v r params :
  reachable w → instance w = Some i → exposed w = Some v →
  props_entityRef (memoizedProps i) = Given r →
  ∃ w' v', step (RouteChanges params) w = Return w' ∧ exposed w' = Some v' ∧
    network w' = network w ∧
    entityRef v' = Some r ∧
    entityRef v = Some r ∧
    path v' = match props_path (memoizedProps i) with
              | Given p => p
              | Undefined => ""
              | Absent => orDefault "" (splat params)
              end ∧
    metadata v' = metadata v ∧
    entityMetadata v' = entityMetadata v ∧
    title v' = title v ∧
    subtitle v' = subtitle v ∧
    shadowRoot v' = shadowRoot v.
Proof.
  intros Hw%reachable_quiescent Hi Hv Hgiven.
  destruct (quiescent_exposed w i Hw Hi)
    as (n & t0 & st & sr & _ & Ht & Hst & Hsr & Hd1 & Hd2 & Hv').
  rewrite Hv in Hv'. injection Hv' as Ev.
  rewrite Hgiven in Hd1, Hd2. simpl in Hd1, Hd2.
  do 2 eexists. split; [done|]. rewrite (navigate_eq w i params Hw Hi). cbv zeta.
  rewrite exposed_rendered. cbn [network]. rewrite Hgiven. cbn [spread].
  destruct (asyncAfter_idle _ _ Hd1) as [-> ->].
  destruct (asyncAfter_idle _ _ Hd2) as [-> ->].
  split; [done|]. rewrite !app_nil_r, Ht, Hst, Hsr, Ev. simpl. rewrite Hgiven. simpl.
  repeat split. by destruct (props_path (memoizedProps i)).
Qed.

(** X12. With no entity reference in the props, every route change has the
    provider build a new entity reference object from the new params and
    place both calls again for it, with the next call number, also when the
    new params hold the namespace, kind and name of the old ones; both
    load-states are loading afterwards. *)
Theorem route_change_without_entityRef_refetches (w : World) i params :
  reachable w → instance w = Some i →
  props_entityRef (memoizedProps i) = Absent →
  ∃ w' v', step (RouteChanges params) w = Return w' ∧ exposed w' = Some v' ∧
    entityRef v' = Some (mkObj (ProviderObj (heap w))
                           {| namespace := param_namespace params;
                              kind := param_kind params;
                              name := param_name params |}) ∧
    network w' = network w ++ fetchPair (lastCallId (metadataAsync (cells i))) (entityRef v') ∧
    loading (metadata v') = true ∧
    loading (entityMetadata v') = true.
Proof.
  intros Hr Hi Habsent. pose proof (reachable_quiescent w Hr) as Hw.
  destruct (quiescent_exposed w i Hw Hi)
    as (n & t0 & st & sr & Hm & _ & _ & _ & Hd1 & Hd2 & _).
  destruct (reachable_allocated w Hr i _ _ Hi Hm) as (n' & [= <-] & Hlt).
  pose proof (reachable_paired w Hr) as Hp. unfold paired in Hp. rewrite Hi in Hp.
  destruct Hp as (args & d & _ & _ & _ & Hlm & Hle).
  rewrite Habsent in Hd1, Hd2. cbn [spread] in Hd1, Hd2.
  do 2 eexists. split; [done|]. rewrite (navigate_eq w i params Hw Hi). cbv zeta.
  rewrite exposed_rendered. cbn [network]. rewrite Habsent. cbn [spread].
  unfold asyncAfter, asyncCalls.
  rewrite (depsUnchanged_congr _ _ _ Hd1), (depsUnchanged_congr _ _ _ Hd2).
  unfold Object_is. cbn [oid routeDefault default_entityRef].
  rewrite bool_decide_eq_false_2 by (intros [= ->]; lia).
  split; [done|]. cbn [valueOf entityRef metadata entityMetadata state default_entityRef
                       routeDefault spread content].
  rewrite Habsent. cbn [spread]. split; [done|]. split.
  - unfold fetchPair. by rewrite <- app_assoc, Hle, Hlm.
  - split; [by destruct (loading (state (metadataAsync (cells i)))) eqn:E|
            by destruct (loading (state (entityMetadataAsync (cells i)))) eqn:E].
Qed.

(** ** Mounting *)

(** X13. Whatever the props and the route, a provider that has just
    mounted exposes the title, subtitle and shadow root of the default value
    and two load-states that are loading like the default's, but setters
    bound to its own state where the default has closures that do nothing. *)
Theorem mounted_value_starts_from_default (w w' : World) props :
  instance w = None → parentRender props w = Return w' →
  ∃ v, exposed w' = Some v ∧
    title v = title defaultTechDocsReaderPageValue ∧
    subtitle v = subtitle defaultTechDocsReaderPageValue ∧
    shadowRoot v = shadowRoot defaultTechDocsReaderPageValue ∧
    metadata v = metadata defaultTechDocsReaderPageValue ∧
    entityMetadata v = entityMetadata defaultTechDocsReaderPageValue ∧
    setTitle v ≠ setTitle defaultTechDocsReaderPageValue ∧
    setSubtitle v ≠ setSubtitle defaultTechDocsReaderPageValue ∧
    setShadowRoot v ≠ setShadowRoot defaultTechDocsReaderPageValue.
Proof.
  intros Hi. unfold parentRender. rewrite Hi. intros [= <-].
  eexists. split; [apply exposed_commit|]. by repeat split.
Qed.

(** ** The state hook *)

(** X14. The state hook returns [undefined] for the path, or for the entity
    reference, exactly when its argument holds that key with the value
    [undefined]: never when it is called without argument, and never when
    the key is missing, whatever the route holds. *)
Theorem state_hook_undefined_only_when_passed
    (initialState : option TechDocsReaderPageState) params s :
  (state_path (useTechDocsReaderPageState initialState params s).1 = None ↔
   ∃ st, initialState = Some st ∧ init_path st = Undefined) ∧
  (state_entityRef (useTechDocsReaderPageState initialState params s).1 = None ↔
   ∃ st, initialState = Some st ∧ init_entityRef st = Undefined).
Proof.
  destruct initialState as [[p r]|].
  - rewrite useTechDocsReaderPageState_eq. simpl.
    destruct p, r; simpl; split; split; try done;
      try (intros _; by eexists); by intros (st & [= <-] & Hu).
  - change (useTechDocsReaderPageState None params s)
      with (useTechDocsReaderPageState
              (Some {| init_path := Absent; init_entityRef := Absent |}) params s).
    rewrite useTechDocsReaderPageState_eq. simpl.
    split; split; try done; by intros (st & [=] & _).
Qed.

(** ** A missing path and an undefined one *)

(** X15. The comparator reads a missing path key and one that holds
    [undefined] alike, the spread does not.  After a render without path
    key, a parent render that sets the key to [undefined] is skipped and the
    exposed path stays the route's capture, while a provider mounted with
    the same props exposes the empty string. *)
Theorem undefined_path_after_missing_is_skipped (w : World) i s :
  reachable w → instance w = Some i →
  props_path (memoizedProps i) = Absent →
  stringifyEntityRef (content <$> read (props_entityRef (memoizedProps i))) = Return s →
  let nextProps := {| props_path := Undefined;
                      props_entityRef := props_entityRef (memoizedProps i);
                      children := children (memoizedProps i) |} in
  parentRender nextProps w = Return w ∧
  path <$> exposed w = Some (orDefault "" (splat (content (route w)))) ∧
  ∀ w0 : World, instance w0 = None →
    ∃ w1, parentRender nextProps w0 = Return w1 ∧ path <$> exposed w1 = Some "".
Proof.
  intros Hw%reachable_quiescent Hi Hpath Hs nextProps. repeat split.
  - unfold parentRender, propsAreEqual, areEntityRefsEqual. rewrite Hi. simpl.
    rewrite Hs, Hpath. simpl. by rewrite bool_decide_eq_true_2.
  - destruct (quiescent_exposed w i Hw Hi)
      as (n & t0 & st & sr & _ & _ & _ & _ & _ & _ & ->).
    simpl. by rewrite Hpath.
  - intros w0 Hi0. unfold parentRender. rewrite Hi0. eexists. split; [done|].
    by rewrite exposed_commit.
Qed.

End Properties.

(** ** The properties on a concrete page *)

#[local] Existing Instance sampleImports.

Lemma overviewPage_reachable : reachable overviewPage.
Proof.
  apply reachable_step with (ParentRenders componentProps) (start componentRoute);
    [apply reachable_start|reflexivity].
Qed.

(** C4 on a provider that only knows schema version 2. *)
Lemma useTechDocsReaderPage_version_mismatch_witness :
  atVersion ({[ 2 := defaultTechDocsReaderPageValue ]} : gmap nat TechDocsReaderPageValue) 1 = None ∧
  useTechDocsReaderPage (Some {[ 2 := defaultTechDocsReaderPageValue ]})
  = Throw "No context found for version 1.".
Proof.
  split; [reflexivity|].
  apply (useTechDocsReaderPage_version_mismatch {[ 2 := defaultTechDocsReaderPageValue ]}).
  reflexivity.
Defined.

(** C9 on the mounted page. *)
Lemma provider_publishes_version_1_witness :
  reachable overviewPage ∧
  ∃ versioned, context overviewPage = Some versioned ∧
    (∀ n, is_Some (atVersion versioned n) ↔ n = 1) ∧
    ∃ v, exposed overviewPage = Some v ∧ useTechDocsReaderPage (context overviewPage) = Return v.
Proof.
  split; [apply overviewPage_reachable|].
  eexists. split; [reflexivity|].
  apply provider_publishes_version_1; [apply overviewPage_reachable|reflexivity].
Defined.

(** C3, amended, on the specification's example: no path prop and a route
    whose catch-all capture is [overview]. *)
Lemma exposed_state_merges_props_over_route_witness :
  reachable overviewPage ∧
  ∃ i, instance overviewPage = Some i ∧
    ∃ v (n : nat), exposed overviewPage = Some v ∧
      path v = "overview" ∧
      entityRef v = Some (fooRef 1).
Proof.
  split; [apply overviewPage_reachable|].
  eexists. split; [reflexivity|].
  exact (exposed_state_merges_props_over_route overviewPage _ overviewPage_reachable eq_refl).
Defined.

(** C3 as stated fails where the props hold the path key with [undefined]:
    no path is supplied and the route captured [overview], yet the exposed
    path is the empty string. *)
Lemma undefined_path_hides_route_capture :
  let props := pageProps Undefined (Given (fooRef 1)) in
  read (props_path props) = None ∧
  splat componentRoute = Some "overview" ∧
  parentRender props (start componentRoute) = Return (mount props componentRoute) ∧
  path <$> exposed (mount props componentRoute) = Some "" ∧
  path <$> exposed (mount props componentRoute) ≠ Some "overview".
Proof. by repeat split. Qed.

(** C10 on a route that carries no kind. *)
Lemma route_entityRef_is_not_validated_witness :
  let params := {| param_namespace := Some "default";
                   param_kind := None;
                   param_name := Some "foo";
                   splat := None |} in
  let w := mount (pageProps Absent Absent) params in
  reachable w ∧
  ∃ i, instance w = Some i ∧ props_entityRef (memoizedProps i) = Absent ∧
    ∃ v r, exposed w = Some v ∧ entityRef v = Some r ∧
      namespace (content r) = Some "default" ∧
      kind (content r) = None ∧
      name (content r) = Some "foo" ∧
      (Some "default" = None ∨ (None : option string) = None ∨ Some "foo" = None →
       ¬ wellTyped (content r)).
Proof.
  assert (reachable (mount (pageProps Absent Absent)
            {| param_namespace := Some "default"; param_kind := None;
               param_name := Some "foo"; splat := None |})) as Hreach.
  { eapply reachable_step with (e := ParentRenders _); [apply reachable_start|reflexivity]. }
  split; [exact Hreach|].
  eexists. split; [reflexivity|]. split; [reflexivity|].
  exact (route_entityRef_is_not_validated _ _ Hreach eq_refl eq_refl).
Defined.

(** C7 on the mounted page: the parent passes a path and another object for
    the same entity. *)
Lemma path_change_is_rendered_witness :
  let nextProps := pageProps (Given "api") (Given (fooRef 2)) in
  ∃ i, instance overviewPage = Some i ∧
    areEntityRefsEqual (read (props_entityRef (memoizedProps i)))
      (read (props_entityRef nextProps)) = Return true ∧
    props_path nextProps = Given "api" ∧
    read (props_path (memoizedProps i)) ≠ Some "api" ∧
    propsAreEqual (memoizedProps i) nextProps = Return false ∧
    ∃ w', parentRender nextProps overviewPage = Return w' ∧
      memoizedProps <$> instance w' = Some nextProps ∧
      path <$> exposed w' = Some "api".
Proof.
  eexists. split; [reflexivity|]. split; [reflexivity|]. split; [reflexivity|].
  split; [discriminate|].
  apply (path_change_is_rendered overviewPage _ (pageProps (Given "api") (Given (fooRef 2))) "api");
    [reflexivity|reflexivity|reflexivity|discriminate].
Defined.

(** C6 on the mounted page. *)
Lemma setTitle_changes_only_title_witness :
  reachable overviewPage ∧
  props_entityRef componentProps ≠ Absent ∧
  memoizedProps <$> instance overviewPage = Some componentProps ∧
  ∃ v, exposed overviewPage = Some v ∧
    ∃ w' v', step (CallsSetTitle (NewState "Getting started")) overviewPage = Return w' ∧
      exposed w' = Some v' ∧
      title v' = "Getting started" ∧
      path v' = "overview" ∧
      entityRef v' = Some (fooRef 1) ∧
      metadata v' = pending ∧
      entityMetadata v' = pending ∧
      subtitle v' = "" ∧
      shadowRoot v' = None.
Proof.
  assert (props_entityRef componentProps ≠ Absent) as Hprops by discriminate.
  split; [apply overviewPage_reachable|]. split; [exact Hprops|]. split; [reflexivity|].
  eexists. split; [reflexivity|].
  destruct (setTitle_changes_only_title overviewPage _ _ "Getting started"
              overviewPage_reachable eq_refl Hprops eq_refl)
    as (w' & v' & Hstep & _ & Hv' & Ht & Hp & He & Hm & Hem & Hst & Hsr & _).
  exists w', v'. by repeat split.
Defined.

(** C5, amended, on the mounted page: the first metadata fetch rejects; a
    rejection under another call number is dropped. *)
Lemma metadata_rejection_is_captured_witness :
  reachable overviewPage ∧
  ∃ i v, instance overviewPage = Some i ∧ exposed overviewPage = Some v ∧
    props_entityRef (memoizedProps i) ≠ Absent ∧
    lastCallId (metadataAsync (cells i)) = 1 ∧
    (∃ w' v', step (MetadataSettles 1 (Throw "503")) overviewPage = Return w' ∧
       exposed w' = Some v' ∧
       error (metadata v') = Some "503" ∧
       loading (metadata v') = false ∧
       entityMetadata v' = entityMetadata v ∧
       network w' = network overviewPage) ∧
    step (MetadataSettles 7 (Throw "503")) overviewPage = Return overviewPage.
Proof.
  split; [apply overviewPage_reachable|].
  do 2 eexists. split; [reflexivity|]. split; [reflexivity|].
  assert (props_entityRef componentProps ≠ Absent) as Hprops by discriminate.
  split; [exact Hprops|]. split; [reflexivity|].
  destruct (metadata_rejection_is_captured overviewPage _ _ "503"
              overviewPage_reachable eq_refl eq_refl) as [Hlast Hstale].
  split; [exact (Hlast Hprops)|].
  apply (Hstale 7 (Throw "503")). discriminate.
Defined.

(** C5 as stated fails for a fetch that was superseded: the page shows
    [foo], the parent renders it for [bar], and then the first metadata
    fetch rejects.  The rejection is dropped; the exposed load-state holds no
    error and is still loading. *)
Lemma superseded_rejection_is_dropped :
  ∃ w w',
    parentRender (pageProps Absent (Given barRef)) overviewPage = Return w ∧
    network w = [techdocsApi getTechDocsMetadata (Some (fooRef 1)) 1;
                 techdocsApi getEntityMetadata (Some (fooRef 1)) 1;
                 techdocsApi getTechDocsMetadata (Some barRef) 2;
                 techdocsApi getEntityMetadata (Some barRef) 2] ∧
    step (MetadataSettles 1 (Throw "503")) w = Return w' ∧
    (error ∘ metadata) <$> exposed w' = Some None ∧
    (loading ∘ metadata) <$> exposed w' = Some true.
Proof. do 2 eexists. by repeat split. Qed.

(** C1, amended, on the mounted page: another object for the same entity
    and the same path is skipped; an object for another entity is rendered
    and both calls are placed for it. *)
Lemma fetches_follow_object_identity_witness :
  reachable overviewPage ∧
  parentRender (pageProps Absent (Given (fooRef 2))) overviewPage = Return overviewPage ∧
  areEntityRefsEqual (Some (fooRef 1)) (Some barRef) = Return false ∧
  ∃ w' v', parentRender (pageProps Absent (Given barRef)) overviewPage = Return w' ∧
    memoizedProps <$> instance w' = Some (pageProps Absent (Given barRef)) ∧
    exposed w' = Some v' ∧
    entityRef v' = Some barRef ∧
    network w' = network overviewPage ++
                 [techdocsApi getTechDocsMetadata (Some barRef) 2;
                  techdocsApi getEntityMetadata (Some barRef) 2].
Proof.
  split; [apply overviewPage_reachable|].
  destruct (fetches_follow_object_identity overviewPage overviewPage_reachable)
    as (_ & Hskip & Hother & _).
  split; [eapply Hskip; reflexivity|]. split; [reflexivity|].
  assert (∃ i, instance overviewPage = Some i) as [i Hi] by (eexists; reflexivity).
  assert (∃ v, exposed overviewPage = Some v) as [v Hv] by (eexists; reflexivity).
  destruct (Hother i v (pageProps Absent (Given barRef)) false Hi Hv)
    as (w' & v' & Hstep & Hprops & Hv' & Hgiven);
    [injection Hi as <-; reflexivity|reflexivity|].
  destruct (Hgiven barRef eq_refl) as [He Hnet].
  exists w', v'. split; [exact Hstep|]. split; [exact Hprops|]. split; [exact Hv'|].
  split; [exact He|].
  injection Hi as <-. injection Hv as <-. apply Hnet. reflexivity.
Defined.

(** C1 as stated fails where the path props differ: the two entity
    references stringify identically, the render is not skipped, and since
    the reference is another object both calls are placed again. *)
Lemma path_change_with_new_object_refetches :
  let nextProps := pageProps (Given "api") (Given (fooRef 2)) in
  areEntityRefsEqual (read (props_entityRef componentProps))
    (read (props_entityRef nextProps)) = Return true ∧
  ∃ w', parentRender nextProps overviewPage = Return w' ∧
    network w' = network overviewPage ++
                 [techdocsApi getTechDocsMetadata (Some (fooRef 2)) 2;
                  techdocsApi getEntityMetadata (Some (fooRef 2)) 2].
Proof. split; [reflexivity|]. eexists. by split. Qed.

(** ** The further properties on concrete pages *)

Lemma mount_reachable props params : reachable (mount props params).
Proof.
  apply reachable_step with (ParentRenders props) (start params);
    [apply reachable_start|reflexivity].
Qed.

Lemma after_reachable ev w : reachable w → reachable (after ev w).
Proof.
  intros Hw. unfold after. destruct (step ev w) as [w'|] eqn:Hstep; [|done].
  by apply reachable_step with ev w.
Qed.

Lemma titledPage_reachable : reachable titledPage.
Proof. apply after_reachable, overviewPage_reachable. Qed.

(** X1 on the titled page: a function of the previous title. *)
Lemma setTitle_applies_action_witness :
  reachable titledPage ∧
  ∃ i v, instance titledPage = Some i ∧ props_entityRef (memoizedProps i) ≠ Absent ∧
    exposed titledPage = Some v ∧
    ∃ w' v', step (CallsSetTitle (Updater (λ t, t +:+ " (draft)"))) titledPage = Return w' ∧
      exposed w' = Some v' ∧
      title v' = "Guide (draft)" ∧
      network w' = network titledPage.
Proof.
  pose proof titledPage_reachable as Hr.
  assert (∃ i, instance titledPage = Some i ∧ props_entityRef (memoizedProps i) ≠ Absent)
    as (i & Hi & Hprops) by (eexists; split; [run|discriminate]).
  assert (∃ v, exposed titledPage = Some v) as [v Hv] by (eexists; run).
  destruct (setTitle_applies_action titledPage i v (Updater (λ t, t +:+ " (draft)")) Hr Hi Hprops Hv)
    as (w' & v' & Hstep & Hv' & Ht & _ & _ & _ & _ & _ & _ & _ & _ & _ & Hn).
  split; [exact Hr|]. exists i, v. split; [exact Hi|]. split; [exact Hprops|].
  split; [exact Hv|]. exists w', v'.
  split; [exact Hstep|]. split; [exact Hv'|]. split; [|exact Hn].
  rewrite Ht. vm_compute in Hv. injection Hv as <-. run.
Defined.

(** X2 on the titled page. *)
Lemma setSubtitle_applies_action_witness :
  reachable titledPage ∧
  ∃ i v, instance titledPage = Some i ∧ props_entityRef (memoizedProps i) ≠ Absent ∧
    exposed titledPage = Some v ∧
    ∃ w' v', step (CallsSetSubtitle (NewState "catalog")) titledPage = Return w' ∧
      exposed w' = Some v' ∧
      subtitle v' = "catalog" ∧
      title v' = "Guide" ∧
      network w' = network titledPage.
Proof.
  pose proof titledPage_reachable as Hr.
  assert (∃ i, instance titledPage = Some i ∧ props_entityRef (memoizedProps i) ≠ Absent)
    as (i & Hi & Hprops) by (eexists; split; [run|discriminate]).
  assert (∃ v, exposed titledPage = Some v) as [v Hv] by (eexists; run).
  destruct (setSubtitle_applies_action titledPage i v (NewState "catalog") Hr Hi Hprops Hv)
    as (w' & v' & Hstep & Hv' & Hst & Ht & _ & _ & _ & _ & _ & _ & _ & _ & Hn).
  split; [exact Hr|]. exists i, v. split; [exact Hi|]. split; [exact Hprops|].
  split; [exact Hv|]. exists w', v'.
  split; [exact Hstep|]. split; [exact Hv'|]. split; [exact Hst|]. split; [|exact Hn].
  rewrite Ht. vm_compute in Hv. injection Hv as <-. run.
Defined.

(** X3 on the titled page: the shadow root is attached. *)
Lemma setShadowRoot_applies_action_witness :
  reachable titledPage ∧
  ∃ i v, instance titledPage = Some i ∧ props_entityRef (memoizedProps i) ≠ Absent ∧
    exposed titledPage = Some v ∧
    ∃ w' v', step (CallsSetShadowRoot (NewState (Some tt))) titledPage = Return w' ∧
      exposed w' = Some v' ∧
      shadowRoot v' = Some tt ∧
      title v' = "Guide" ∧
      network w' = network titledPage.
Proof.
  pose proof titledPage_reachable as Hr.
  assert (∃ i, instance titledPage = Some i ∧ props_entityRef (memoizedProps i) ≠ Absent)
    as (i & Hi & Hprops) by (eexists; split; [run|discriminate]).
  assert (∃ v, exposed titledPage = Some v) as [v Hv] by (eexists; run).
  destruct (setShadowRoot_applies_action titledPage i v (NewState (Some tt)) Hr Hi Hprops Hv)
    as (w' & v' & Hstep & Hv' & Hsr & Ht & _ & _ & _ & _ & _ & _ & _ & _ & Hn).
  split; [exact Hr|]. exists i, v. split; [exact Hi|]. split; [exact Hprops|].
  split; [exact Hv|]. exists w', v'.
  split; [exact Hstep|]. split; [exact Hv'|]. split; [exact Hsr|]. split; [|exact Hn].
  rewrite Ht. vm_compute in Hv. injection Hv as <-. run.
Defined.

(** X4 on the titled page. *)
Lemma setters_compose_witness :
  reachable titledPage ∧
  ∃ v, exposed titledPage = Some v ∧
    ∃ w12 w21 w11,
      step (CallsSetSubtitle (NewState "catalog"))
        (after (CallsSetTitle (NewState "API")) titledPage) = Return w12 ∧
      step (CallsSetTitle (NewState "API"))
        (after (CallsSetSubtitle (NewState "catalog")) titledPage) = Return w21 ∧
      step (CallsSetTitle (Updater (λ t, t +:+ " v2")))
        (after (CallsSetTitle (NewState "API")) titledPage) = Return w11 ∧
      exposed w12 = exposed w21 ∧
      title <$> exposed w11 = Some "API v2".
Proof.
  pose proof titledPage_reachable as Hr.
  assert (∃ v, exposed titledPage = Some v) as [v Hv] by (eexists; run).
  destruct (setters_compose titledPage v (NewState "API") (Updater (λ t, t +:+ " v2"))
              (NewState "catalog") Hr Hv)
    as (w1 & w12 & w2 & w21 & w11 & H1 & H12 & H2 & H21 & H11 & He & _ & Ht).
  split; [exact Hr|]. exists v. split; [exact Hv|]. exists w12, w21, w11.
  unfold after. rewrite H1, H2.
  split; [exact H12|]. split; [exact H21|]. split; [exact H11|]. split; [exact He|].
  rewrite Ht. run.
Defined.

(** X5 on the titled page. *)
Lemma unchanged_state_renders_nothing_witness :
  reachable titledPage ∧
  ∃ i v, instance titledPage = Some i ∧ props_entityRef (memoizedProps i) ≠ Absent ∧
    exposed titledPage = Some v ∧
    title v = "Guide" ∧
    exposed (rerender (cells i) titledPage) = Some v ∧
    ∃ w', step (CallsSetTitle (NewState "Guide")) titledPage = Return w' ∧
      exposed w' = Some v ∧
      network w' = network titledPage.
Proof.
  pose proof titledPage_reachable as Hr.
  assert (∃ i, instance titledPage = Some i ∧ props_entityRef (memoizedProps i) ≠ Absent)
    as (i & Hi & Hprops) by (eexists; split; [run|discriminate]).
  assert (∃ v, exposed titledPage = Some v) as [v Hv] by (eexists; run).
  destruct (unchanged_state_renders_nothing titledPage i v Hr Hi Hprops Hv)
    as ((Hre & _) & Hset).
  assert (title v = "Guide") as Etitle by (vm_compute in Hv; injection Hv as <-; run).
  destruct (Hset (CallsSetTitle (NewState (title v)))) as (w' & Hstep & Hv' & _ & Hnet);
    [by left|].
  split; [exact Hr|]. exists i, v. split; [exact Hi|]. split; [exact Hprops|].
  split; [exact Hv|]. split; [exact Etitle|]. split; [exact Hre|].
  exists w'. rewrite <- Etitle. split; [exact Hstep|]. split; [exact Hv'|exact Hnet].
Defined.

(** X6 after a parent render for another entity: two pairs. *)
Lemma fetches_come_in_pairs_witness :
  let w := after (ParentRenders (pageProps Absent (Given barRef))) overviewPage in
  reachable w ∧
  network w = fetchLog [Some (fooRef 1); Some barRef] ∧
  ∃ i v, instance w = Some i ∧ exposed w = Some v ∧
    ∃ args d,
      network w = fetchLog (args ++ [d]) ∧
      Object_is d (entityRef v) = true ∧
      lastCallId (metadataAsync (cells i)) = S (length args) ∧
      lastCallId (entityMetadataAsync (cells i)) = S (length args).
Proof.
  intros w.
  assert (reachable w) as Hr by apply after_reachable, overviewPage_reachable.
  assert (∃ i, instance w = Some i) as [i Hi] by (eexists; run).
  assert (∃ v, exposed w = Some v) as [v Hv] by (eexists; run).
  split; [exact Hr|]. split; [run|]. exists i, v.
  split; [exact Hi|]. split; [exact Hv|].
  exact (proj2 (fetches_come_in_pairs w Hr) i v Hi Hv).
Defined.

(** X7 on the heading page: the render function shows the title that was
    set. *)
Lemma render_prop_receives_exposed_value_witness :
  reachable headingPage ∧
  ∃ i, instance headingPage = Some i ∧
    subtree (rendered i) = "<h1>Guide</h1>" ∧
    ∃ v, exposed headingPage = Some v ∧
      useTechDocsReaderPage (context headingPage) = Return v ∧
      subtree (rendered i) = "<h1>" +:+ title v +:+ "</h1>".
Proof.
  assert (reachable headingPage) as Hr by apply after_reachable, mount_reachable.
  assert (∃ i, instance headingPage = Some i) as [i Hi] by (eexists; run).
  pose proof Hi as Ei. vm_compute in Ei. injection Ei as Ei. subst i.
  split; [exact Hr|]. eexists. split; [exact Hi|]. split; [run|].
  exact (render_prop_receives_exposed_value headingPage _ Hr Hi).
Defined.

(** X8 on the heading page: other children, same entity and path. *)
Lemma new_children_alone_are_not_rendered_witness :
  ∃ i, instance headingPage = Some i ∧
    stringifyEntityRef (content <$> read (props_entityRef (memoizedProps i)))
    = Return "Component:default/foo" ∧
    parentRender (pageProps Absent (Given (fooRef 1))) headingPage = Return headingPage.
Proof.
  assert (∃ i, instance headingPage = Some i) as [i Hi] by (eexists; run).
  pose proof Hi as Ei. vm_compute in Ei. injection Ei as Ei. subst i.
  eexists. split; [exact Hi|]. split; [run|].
  exact (new_children_alone_are_not_rendered headingPage _ (@Node sampleImports "<Reader/>")
           "Component:default/foo" Hi ltac:(run)).
Defined.

(** X9 on the page mounted without entity reference: the parent cannot
    render it again. *)
Lemma comparator_exception_leaves_render_witness :
  ∃ i, instance routedPage = Some i ∧
    stringifyEntityRef (content <$> read (props_entityRef (memoizedProps i)))
    = Throw "TypeError: Cannot read properties of undefined" ∧
    step (ParentRenders (pageProps (Given "api") Absent)) routedPage
    = Throw "TypeError: Cannot read properties of undefined".
Proof.
  assert (∃ i, instance routedPage = Some i) as [i Hi] by (eexists; run).
  assert (stringifyEntityRef (content <$> read (props_entityRef (memoizedProps i)))
          = Throw "TypeError: Cannot read properties of undefined") as Hs
    by (vm_compute in Hi; injection Hi as <-; run).
  exists i. split; [exact Hi|]. split; [exact Hs|].
  exact (proj2 (comparator_exception_leaves_render routedPage i
                  (pageProps (Given "api") Absent) _ Hi (or_introl Hs))).
Defined.

(** X10 on three prop sets for the same entity and path. *)
Lemma comparator_is_symmetric_and_transitive_witness :
  propsAreEqual (pageProps Absent (Given (fooRef 1))) (pageProps Undefined (Given (fooRef 2)))
  = Return true ∧
  propsAreEqual (pageProps Undefined (Given (fooRef 2))) headingProps = Return true ∧
  propsAreEqual (pageProps Undefined (Given (fooRef 2))) (pageProps Absent (Given (fooRef 1)))
  = Return true ∧
  propsAreEqual (pageProps Absent (Given (fooRef 1))) headingProps = Return true.
Proof.
  split; [run|]. split; [run|].
  apply comparator_is_symmetric_and_transitive; run.
Defined.

(** X11 on the overview page: the reader moves to the API page. *)
Lemma route_change_with_given_entityRef_witness :
  reachable overviewPage ∧
  ∃ i v, instance overviewPage = Some i ∧ exposed overviewPage = Some v ∧
    props_entityRef (memoizedProps i) = Given (fooRef 1) ∧
    ∃ w' v', step (RouteChanges apiRoute) overviewPage = Return w' ∧
      exposed w' = Some v' ∧
      network w' = network overviewPage ∧
      entityRef v' = Some (fooRef 1) ∧
      path v = "overview" ∧
      path v' = "api".
Proof.
  pose proof overviewPage_reachable as Hr.
  assert (∃ i, instance overviewPage = Some i) as [i Hi] by (eexists; run).
  assert (∃ v, exposed overviewPage = Some v) as [v Hv] by (eexists; run).
  assert (props_entityRef (memoizedProps i) = Given (fooRef 1)) as Hg
    by (vm_compute in Hi; injection Hi as <-; run).
  assert (props_path (memoizedProps i) = Absent) as Hp0
    by (vm_compute in Hi; injection Hi as <-; run).
  assert (path v = "overview") as Hpv
    by (vm_compute in Hv; injection Hv as <-; run).
  destruct (route_change_with_given_entityRef overviewPage i v (fooRef 1) apiRoute
              Hr Hi Hv Hg)
    as (w' & v' & Hstep & Hv' & Hn & He & _ & Hp & _).
  split; [exact Hr|]. exists i, v. split; [exact Hi|]. split; [exact Hv|].
  split; [exact Hg|]. exists w', v'.
  split; [exact Hstep|]. split; [exact Hv'|]. split; [exact Hn|]. split; [exact He|].
  split; [exact Hpv|]. rewrite Hp, Hp0. run.
Defined.

(** X12 on the page mounted without entity reference: moving to the API
    page of the same entity fetches its metadata again. *)
Lemma route_change_without_entityRef_refetches_witness :
  reachable routedPage ∧
  ∃ i, instance routedPage = Some i ∧
    props_entityRef (memoizedProps i) = Absent ∧
    ∃ w' v', step (RouteChanges apiRoute) routedPage = Return w' ∧
      exposed w' = Some v' ∧
      content <$> entityRef v' =
        Some {| kind := Some "Component"; namespace := Some "default"; name := Some "foo" |} ∧
      length (network routedPage) = 2 ∧
      length (network w') = 4.
Proof.
  pose proof (mount_reachable (pageProps Absent Absent) componentRoute) as Hr.
  assert (∃ i, instance routedPage = Some i) as [i Hi] by (eexists; run).
  assert (props_entityRef (memoizedProps i) = Absent) as Ha
    by (vm_compute in Hi; injection Hi as <-; run).
  destruct (route_change_without_entityRef_refetches routedPage i apiRoute Hr Hi Ha)
    as (w' & v' & Hstep & Hv' & He & Hn & _).
  split; [exact Hr|]. exists i. split; [exact Hi|]. split; [exact Ha|]. exists w', v'.
  split; [exact Hstep|]. split; [exact Hv'|].
  split; [rewrite He; run|]. split; [run|].
  rewrite Hn, length_app. run.
Defined.

(** X13 on the overview page. *)
Lemma mounted_value_starts_from_default_witness :
  instance (start componentRoute) = None ∧
  parentRender componentProps (start componentRoute) = Return overviewPage ∧
  ∃ v, exposed overviewPage = Some v ∧
    title v = "" ∧
    subtitle v = "" ∧
    shadowRoot v = None ∧
    metadata v = pending ∧
    entityMetadata v = pending ∧
    setTitle v ≠ Noop ∧
    setSubtitle v ≠ Noop ∧
    setShadowRoot v ≠ Noop.
Proof.
  assert (instance (start componentRoute) = None) as Hi by reflexivity.
  assert (parentRender componentProps (start componentRoute) = Return overviewPage) as Hm
    by reflexivity.
  split; [exact Hi|]. split; [exact Hm|].
  exact (mounted_value_starts_from_default (start componentRoute) overviewPage componentProps
           Hi Hm).
Defined.

(** X15 on the overview page. *)
Lemma undefined_path_after_missing_is_skipped_witness :
  reachable overviewPage ∧
  ∃ i, instance overviewPage = Some i ∧
    props_path (memoizedProps i) = Absent ∧
    parentRender (pageProps Undefined (Given (fooRef 1))) overviewPage = Return overviewPage ∧
    path <$> exposed overviewPage = Some "overview" ∧
    ∀ w0 : World, instance w0 = None →
      ∃ w1, parentRender (pageProps Undefined (Given (fooRef 1))) w0 = Return w1 ∧
        path <$> exposed w1 = Some "".
Proof.
  pose proof overviewPage_reachable as Hr.
  assert (∃ i, instance overviewPage = Some i) as [i Hi] by (eexists; run).
  pose proof Hi as Ei. vm_compute in Ei. injection Ei as Ei. subst i.
  split; [exact Hr|]. eexists. split; [exact Hi|]. split; [run|].
  destruct (undefined_path_after_missing_is_skipped overviewPage _ "Component:default/foo"
              Hr Hi ltac:(run) ltac:(run)) as (Hskip & Hpath & Hmount).
  split; [exact Hskip|]. split; [rewrite Hpath; run|exact Hmount].
Defined.
